(** * hireling-mysql: the MySQL job store of Hireling

    A shallow embedding of the two generations of [MysqlEngine] found in
    the repository:

    - the pooled engine ([mysql.createPool], methods [add], [getById],
      [get], [reserve], [updateById], [removeById], [remove], [clear],
      [initSchema]; counters [retryx] and [retries]; procedure
      [reserve_sproc]);
    - the single-connection engine ([mysql.createConnection], methods
      [clear], [add], [getById], [atomicFindReady], [updateById],
      [removeById], [removeByStatus], [refreshExpired], [refreshStalled],
      [createTable]; counter [attempts]; procedure [atomicFindReady]).

    The TypeScript methods are functions in a state-and-error monad over a
    connection pool, which is an interface ([MysqlPool]) as in the source.
    The SQL statements the methods send are the constructors of [Stmt];
    the text of the dynamically built ones is rendered by [insert_text],
    [select_text], [update_text] and [delete_text].  [Server] is the
    MySQL server as the statements of the engine see it: one table of
    rows, its index names, the stored procedure, the server clock and
    the choices SQL leaves to the server; a call of the stored
    procedure runs as a whole, callers come one after the other.
    [Answering] is a pool that rejects the statements it is told to
    reject, whatever the reason.

    The columns are those of CREATE TABLE:
    - a JavaScript [Date] and a point in time of the server are a
      number of milliseconds ([Z]); a DATETIME column keeps whole
      seconds between the years 1000 and 9999, and a value with a
      fraction is rounded to the nearest second ([datetime]);
    - an INT column holds a signed number of 32 bits ([in_int]);
    - CHAR(36) and VARCHAR(100) hold that many characters at most, a
      [string] being a sequence of characters;
    - ENUM holds one of its four names, LONGTEXT any string (its limit
      is above the length of a JavaScript string).

    What the source leaves to the configuration of the server is fixed
    as follows:
    - strict mode (the default): a value that does not fit its column
      is refused; a parameter whose JavaScript type is not that of the
      column, which the server might convert, is refused as well, and
      no statement below rests on such a refusal;
    - the default rounding of fractional seconds, and one time zone for
      the driver and the server;
    - a transactional table: a statement is applied as a whole or not
      at all, and a statement that is rejected has changed nothing (a
      reply lost on the way back is not modelled);
    - strings compare exactly (a binary collation), and identifiers
      carry no trailing spaces, which CHAR pads and strips;
    - [affectedRows] counts the rows matched by the WHERE clause (the
      driver connects with the FOUND_ROWS flag).

    What SQL leaves to the server is a part of its state ([DB]): the
    place a new row takes among the others ([slot]), and the row that a
    SELECT with LIMIT 1 and no ORDER BY meets first ([seek]).  A SELECT
    without ORDER BY returns rows in the order of the table. *)

From Stdlib Require Import ZArith List String Ascii Bool Lia.
Import ListNotations.

Local Open Scope Z_scope.
Local Open Scope list_scope.
Local Open Scope string_scope.

(** ** JavaScript values and objects *)

(** The values the engine passes around: job fields, bound parameters and
    payloads ([any] in the source). *)
#[local] Set Warnings "-register-all".
Inductive Value : Type :=
| VNull
| VBool (b : bool)
| VNum (n : Z)
| VStr (s : string)
| VDate (ms : Z)
| VArr (items : list Value)
| VObj (fields : list (string * Value)).

(** [if (v)] *)
Definition truthy (v : Value) : bool :=
  match v with
  | VNull => false
  | VBool b => b
  | VNum n => negb (n =? 0)%Z
  | VStr s => negb (s =? "")
  | _ => true
  end.

(** The keys of [JobAttr], which are the column names of the job table
    (of either generation). *)
Inductive Column : Type :=
| c_id | c_workerid | c_name | c_created | c_expires | c_expirems
| c_stalls | c_stallms | c_status | c_attempts | c_retryx | c_retries
| c_data.

Definition column_name (c : Column) : string :=
  match c with
  | c_id => "id" | c_workerid => "workerid" | c_name => "name"
  | c_created => "created" | c_expires => "expires"
  | c_expirems => "expirems" | c_stalls => "stalls"
  | c_stallms => "stallms" | c_status => "status"
  | c_attempts => "attempts" | c_retryx => "retryx"
  | c_retries => "retries" | c_data => "data"
  end.

Definition column_eqb (a b : Column) : bool :=
  match a, b with
  | c_id, c_id | c_workerid, c_workerid | c_name, c_name
  | c_created, c_created | c_expires, c_expires
  | c_expirems, c_expirems | c_stalls, c_stalls | c_stallms, c_stallms
  | c_status, c_status | c_attempts, c_attempts | c_retryx, c_retryx
  | c_retries, c_retries | c_data, c_data => true
  | _, _ => false
  end.

(** A [JobAttr], a [Partial<JobAttr>] or a row object of the driver: its
    entries in insertion order ([Object.entries]). *)
Definition JsObj : Type := list (Column * Value).

(** [o.k] ([None] is [undefined]) *)
Fixpoint obj_get (k : Column) (o : JsObj) : option Value :=
  match o with
  | [] => None
  | (k', v) :: o' => if column_eqb k k' then Some v else obj_get k o'
  end.

(** [o.k = v] *)
Fixpoint obj_set (k : Column) (v : Value) (o : JsObj) : JsObj :=
  match o with
  | [] => [(k, v)]
  | (k', v') :: o' =>
      if column_eqb k k' then (k, v) :: o' else (k', v') :: obj_set k v o'
  end.

(** [Object.keys(o)] and [Object.values(o)] *)
Definition obj_keys (o : JsObj) : list Column := map fst o.
Definition obj_values (o : JsObj) : list Value := map snd o.

(** ** The job table *)

Inductive JobStatus : Type := ready | processing | done | failed.

Definition status_name (s : JobStatus) : string :=
  match s with
  | ready => "ready" | processing => "processing"
  | done => "done" | failed => "failed"
  end.

Definition status_of_name (s : string) : option JobStatus :=
  if s =? "ready" then Some ready
  else if s =? "processing" then Some processing
  else if s =? "done" then Some done
  else if s =? "failed" then Some failed
  else None.

Definition status_eqb (a b : JobStatus) : bool :=
  match a, b with
  | ready, ready | processing, processing | done, done
  | failed, failed => true
  | _, _ => false
  end.

(** The two generations of the engine and of its table. *)
Inductive Generation : Type :=
| Pooled      (* createPool, initSchema, reserve_sproc, retryx/retries *)
| Connected.  (* createConnection, createTable, atomicFindReady, attempts *)

(** The columns of CREATE TABLE, in order. *)
Definition columns (g : Generation) : list Column :=
  match g with
  | Pooled =>
      [c_id; c_workerid; c_name; c_created; c_expires; c_expirems;
       c_stalls; c_stallms; c_status; c_retryx; c_retries; c_data]
  | Connected =>
      [c_id; c_workerid; c_name; c_created; c_expires; c_expirems;
       c_stalls; c_stallms; c_status; c_attempts; c_data]
  end.

(** The NOT NULL columns (none has a DEFAULT). *)
Definition required (g : Generation) : list Column :=
  match g with
  | Pooled => [c_id; c_created; c_status; c_retryx; c_retries]
  | Connected => [c_id; c_created; c_status; c_attempts]
  end.

Definition sproc_name (g : Generation) : string :=
  match g with
  | Pooled => "reserve_sproc"
  | Connected => "atomicFindReady"
  end.

(** A row of the table.  The record has a slot for every column of
    either generation; a table uses the slots of its own columns. *)
Module Job.
Record t : Type := mk {
  id : string;                (* CHAR(36) NOT NULL, PRIMARY KEY *)
  workerid : option string;   (* CHAR(36) NULL *)
  name : option string;       (* VARCHAR(100) NULL *)
  created : Z;                (* DATETIME NOT NULL *)
  expires : option Z;         (* DATETIME NULL *)
  expirems : option Z;        (* INT NULL *)
  stalls : option Z;          (* DATETIME NULL *)
  stallms : option Z;         (* INT NULL *)
  status : JobStatus;         (* ENUM(...) NOT NULL *)
  attempts : Z;               (* INT NOT NULL *)
  retryx : Z;                 (* INT NOT NULL *)
  retries : Z;                (* INT NOT NULL *)
  data : option string        (* LONGTEXT NULL *)
}.
End Job.

Definition Row : Type := Job.t.

Definition set_id (x : string) (r : Row) : Row :=
  Job.mk x (Job.workerid r) (Job.name r) (Job.created r) (Job.expires r)
    (Job.expirems r) (Job.stalls r) (Job.stallms r) (Job.status r)
    (Job.attempts r) (Job.retryx r) (Job.retries r) (Job.data r).
Definition set_workerid (x : option string) (r : Row) : Row :=
  Job.mk (Job.id r) x (Job.name r) (Job.created r) (Job.expires r)
    (Job.expirems r) (Job.stalls r) (Job.stallms r) (Job.status r)
    (Job.attempts r) (Job.retryx r) (Job.retries r) (Job.data r).
Definition set_name (x : option string) (r : Row) : Row :=
  Job.mk (Job.id r) (Job.workerid r) x (Job.created r) (Job.expires r)
    (Job.expirems r) (Job.stalls r) (Job.stallms r) (Job.status r)
    (Job.attempts r) (Job.retryx r) (Job.retries r) (Job.data r).
Definition set_created (x : Z) (r : Row) : Row :=
  Job.mk (Job.id r) (Job.workerid r) (Job.name r) x (Job.expires r)
    (Job.expirems r) (Job.stalls r) (Job.stallms r) (Job.status r)
    (Job.attempts r) (Job.retryx r) (Job.retries r) (Job.data r).
Definition set_expires (x : option Z) (r : Row) : Row :=
  Job.mk (Job.id r) (Job.workerid r) (Job.name r) (Job.created r) x
    (Job.expirems r) (Job.stalls r) (Job.stallms r) (Job.status r)
    (Job.attempts r) (Job.retryx r) (Job.retries r) (Job.data r).
Definition set_expirems (x : option Z) (r : Row) : Row :=
  Job.mk (Job.id r) (Job.workerid r) (Job.name r) (Job.created r)
    (Job.expires r) x (Job.stalls r) (Job.stallms r) (Job.status r)
    (Job.attempts r) (Job.retryx r) (Job.retries r) (Job.data r).
Definition set_stalls (x : option Z) (r : Row) : Row :=
  Job.mk (Job.id r) (Job.workerid r) (Job.name r) (Job.created r)
    (Job.expires r) (Job.expirems r) x (Job.stallms r) (Job.status r)
    (Job.attempts r) (Job.retryx r) (Job.retries r) (Job.data r).
Definition set_stallms (x : option Z) (r : Row) : Row :=
  Job.mk (Job.id r) (Job.workerid r) (Job.name r) (Job.created r)
    (Job.expires r) (Job.expirems r) (Job.stalls r) x (Job.status r)
    (Job.attempts r) (Job.retryx r) (Job.retries r) (Job.data r).
Definition set_status (x : JobStatus) (r : Row) : Row :=
  Job.mk (Job.id r) (Job.workerid r) (Job.name r) (Job.created r)
    (Job.expires r) (Job.expirems r) (Job.stalls r) (Job.stallms r) x
    (Job.attempts r) (Job.retryx r) (Job.retries r) (Job.data r).
Definition set_attempts (x : Z) (r : Row) : Row :=
  Job.mk (Job.id r) (Job.workerid r) (Job.name r) (Job.created r)
    (Job.expires r) (Job.expirems r) (Job.stalls r) (Job.stallms r)
    (Job.status r) x (Job.retryx r) (Job.retries r) (Job.data r).
Definition set_retryx (x : Z) (r : Row) : Row :=
  Job.mk (Job.id r) (Job.workerid r) (Job.name r) (Job.created r)
    (Job.expires r) (Job.expirems r) (Job.stalls r) (Job.stallms r)
    (Job.status r) (Job.attempts r) x (Job.retries r) (Job.data r).
Definition set_retries (x : Z) (r : Row) : Row :=
  Job.mk (Job.id r) (Job.workerid r) (Job.name r) (Job.created r)
    (Job.expires r) (Job.expirems r) (Job.stalls r) (Job.stallms r)
    (Job.status r) (Job.attempts r) (Job.retryx r) x (Job.data r).
Definition set_data (x : option string) (r : Row) : Row :=
  Job.mk (Job.id r) (Job.workerid r) (Job.name r) (Job.created r)
    (Job.expires r) (Job.expirems r) (Job.stalls r) (Job.stallms r)
    (Job.status r) (Job.attempts r) (Job.retryx r) (Job.retries r) x.

(** The errors of the server and of the driver that the model raises. *)
Inductive StoreError : Type :=
| CR_SERVER_LOST            (* the connection is down *)
| ER_PARSE_ERROR            (* the statement is not in the grammar *)
| ER_WRONG_ARGUMENTS        (* parameters do not fit the placeholders *)
| ER_NO_SUCH_TABLE
| ER_BAD_FIELD_ERROR        (* unknown column *)
| ER_FIELD_SPECIFIED_TWICE
| ER_NO_DEFAULT_FOR_FIELD   (* NOT NULL column left out of an INSERT *)
| ER_BAD_NULL_ERROR         (* NULL for a NOT NULL column *)
| ER_TRUNCATED_WRONG_VALUE  (* value not of the type of the column *)
| ER_DATA_TOO_LONG          (* string longer than CHAR(n), VARCHAR(n) *)
| ER_WARN_DATA_OUT_OF_RANGE (* number outside INT *)
| ER_DATETIME_FUNCTION_OVERFLOW  (* DATE_ADD leaves DATETIME *)
| ER_DUP_ENTRY              (* primary key already present *)
| ER_DUP_KEYNAME            (* index already present *)
| ER_SP_ALREADY_EXISTS
| ER_SP_DOES_NOT_EXIST
| ER_ACCESS_DENIED.

Definition opt_str (o : option string) : Value :=
  match o with Some s => VStr s | None => VNull end.
Definition opt_date (o : option Z) : Value :=
  match o with Some t => VDate t | None => VNull end.
Definition opt_num (o : option Z) : Value :=
  match o with Some n => VNum n | None => VNull end.

(** The value of a column as the driver hands it to JavaScript. *)
Definition column_value (c : Column) (r : Row) : Value :=
  match c with
  | c_id => VStr (Job.id r)
  | c_workerid => opt_str (Job.workerid r)
  | c_name => opt_str (Job.name r)
  | c_created => VDate (Job.created r)
  | c_expires => opt_date (Job.expires r)
  | c_expirems => opt_num (Job.expirems r)
  | c_stalls => opt_date (Job.stalls r)
  | c_stallms => opt_num (Job.stallms r)
  | c_status => VStr (status_name (Job.status r))
  | c_attempts => VNum (Job.attempts r)
  | c_retryx => VNum (Job.retryx r)
  | c_retries => VNum (Job.retries r)
  | c_data => opt_str (Job.data r)
  end.

(** *** The types of the columns *)

(** DATETIME: the whole second nearest to a point in time, the half
    second going up, and the range from 1000-01-01 00:00:00 to
    9999-12-31 23:59:59. *)
Definition datetime (ms : Z) : Z := 1000 * ((ms + 500) / 1000).

Definition in_datetime (ms : Z) : bool :=
  (-30610224000000 <=? ms)%Z && (ms <=? 253402300799000)%Z.

(** INT: 32 bits with a sign. *)
Definition in_int (n : Z) : bool :=
  (-2147483648 <=? n)%Z && (n <=? 2147483647)%Z.

(** What a column of each type takes of a parameter of its JavaScript
    type, in strict mode. *)
Definition CHAR (n : nat) (s : string) : StoreError + string :=
  if (String.length s <=? n)%nat then inr s else inl ER_DATA_TOO_LONG.

Definition VARCHAR (n : nat) (s : string) : StoreError + string :=
  if (String.length s <=? n)%nat then inr s else inl ER_DATA_TOO_LONG.

Definition DATETIME (ms : Z) : StoreError + Z :=
  if in_datetime (datetime ms) then inr (datetime ms)
  else inl ER_TRUNCATED_WRONG_VALUE.

Definition INT (n : Z) : StoreError + Z :=
  if in_int n then inr n else inl ER_WARN_DATA_OUT_OF_RANGE.

Definition ENUM (s : string) : StoreError + JobStatus :=
  match status_of_name s with
  | Some st => inr st
  | None => inl ER_TRUNCATED_WRONG_VALUE
  end.

(** The row with the converted value in its column, or the refusal of
    the conversion. *)
Definition put {A : Type} (x : StoreError + A) (set : A -> Row)
  : StoreError + Row :=
  match x with
  | inl e => inl e
  | inr a => inr (set a)
  end.

(** Storing a bound parameter in a column. *)
Definition assign (c : Column) (v : Value) (r : Row) : StoreError + Row :=
  match c, v with
  | c_id, VStr s => put (CHAR 36 s) (fun x => set_id x r)
  | c_workerid, VStr s => put (CHAR 36 s) (fun x => set_workerid (Some x) r)
  | c_workerid, VNull => inr (set_workerid None r)
  | c_name, VStr s => put (VARCHAR 100 s) (fun x => set_name (Some x) r)
  | c_name, VNull => inr (set_name None r)
  | c_created, VDate t => put (DATETIME t) (fun x => set_created x r)
  | c_expires, VDate t => put (DATETIME t) (fun x => set_expires (Some x) r)
  | c_expires, VNull => inr (set_expires None r)
  | c_expirems, VNum n => put (INT n) (fun x => set_expirems (Some x) r)
  | c_expirems, VNull => inr (set_expirems None r)
  | c_stalls, VDate t => put (DATETIME t) (fun x => set_stalls (Some x) r)
  | c_stalls, VNull => inr (set_stalls None r)
  | c_stallms, VNum n => put (INT n) (fun x => set_stallms (Some x) r)
  | c_stallms, VNull => inr (set_stallms None r)
  | c_status, VStr s => put (ENUM s) (fun x => set_status x r)
  | c_attempts, VNum n => put (INT n) (fun x => set_attempts x r)
  | c_retryx, VNum n => put (INT n) (fun x => set_retryx x r)
  | c_retries, VNum n => put (INT n) (fun x => set_retries x r)
  | c_data, VStr s => inr (set_data (Some s) r)
  | c_data, VNull => inr (set_data None r)
  | (c_id | c_created | c_status | c_attempts | c_retryx | c_retries),
    VNull => inl ER_BAD_NULL_ERROR
  | _, _ => inl ER_TRUNCATED_WRONG_VALUE
  end.

(** What a column gives back of a parameter it has taken: a point in
    time comes back as the whole second the column keeps, every other
    value as it was bound. *)
Definition stored (c : Column) (v : Value) : Value :=
  match c, v with
  | (c_created | c_expires | c_stalls), VDate t => VDate (datetime t)
  | _, _ => v
  end.


(** The row object of the driver: every column of the table, in order. *)
Definition row_to_obj (g : Generation) (r : Row) : JsObj :=
  map (fun c => (c, column_value c r)) (columns g).

(** ** Statements *)

(** The statements the engine sends.  [InsertInto], [SelectWhere],
    [UpdateSetWhereId] and [DeleteWhere] carry the keys the engine splices
    into the text; the parameters travel separately. *)
Inductive Stmt : Type :=
| CreateTable
| AddIndex (index : string) (on : list Column)
| DropProcedure
| CreateProcedure
| CallProcedure
| InsertInto (keys : list Column)
| SelectWhere (keys : list Column)
| UpdateSetWhereId (keys : list Column)
| DeleteWhere (keys : list Column)
| DeleteAll
| UpdateExpired
| UpdateStalled.

Definition backticked (k : Column) : string :=
  "`" ++ column_name k ++ "`".

Definition newline : string := String (ascii_of_nat 10) "".

(** [keys.map(k => `\`${k}\``).join(', ')] *)
Definition column_list (keys : list Column) : string :=
  String.concat ", " (map backticked keys).

(** [vals.map(() => '?').join(', ')] *)
Definition placeholders (keys : list Column) : string :=
  String.concat ", " (map (fun _ => "?") keys).

(** [Object.keys(query).map(k => `\`${k}\` = ?`).join(' AND ')] *)
Definition where_clause (keys : list Column) : string :=
  String.concat " AND " (map (fun k => backticked k ++ " = ?") keys).

(** [Object.keys(values).map(v => `${v} = ?`).join(', ')] *)
Definition set_clause (keys : list Column) : string :=
  String.concat ", " (map (fun v => column_name v ++ " = ?") keys).

Definition insert_text (dbtable : string) (keys : list Column) : string :=
  String.concat " "
    ["INSERT INTO " ++ dbtable;
     "(" ++ column_list keys ++ ")";
     "VALUES (" ++ placeholders keys ++ ")"].

Definition select_text (dbtable : string) (keys : list Column) : string :=
  "SELECT * FROM " ++ dbtable ++ " WHERE " ++ where_clause keys.

Definition update_text (dbtable : string) (keys : list Column) : string :=
  "UPDATE " ++ dbtable ++ newline ++
  "      SET " ++ set_clause keys ++ newline ++
  "      WHERE `id` = ?".

Definition delete_text (dbtable : string) (keys : list Column) : string :=
  "DELETE FROM " ++ dbtable ++ " WHERE " ++ where_clause keys.

(** What the driver resolves a statement to: the rows of a SELECT, the
    header of an INSERT, UPDATE or DELETE, or the result sets of a
    CALL. *)
Inductive Result : Type :=
| Rows (rs : list JsObj)
| Header (affected : nat)
| Sets (ss : list (list JsObj)).

(** [rows[0] || null] *)
Definition first_row (res : Result) : option JsObj :=
  match res with
  | Rows (r :: _) => Some r
  | _ => None
  end.

(** [rows && rows.affectedRows || 0] *)
Definition affectedRows (res : Result) : nat :=
  match res with
  | Header n => n
  | _ => 0%nat
  end.

(** The interface of the source ([MysqlPool], [MysqlConnection]):
    [execute] sends a prepared statement with its parameters, [query] a
    plain one.  A call rejects with a store error or resolves. *)
Class MysqlPool (S : Type) : Type := {
  execute : Stmt -> list Value -> S -> (StoreError + Result) * S;
  query : Stmt -> S -> (StoreError + Result) * S
}.

(** [Serializer] of hireling, the payload codec. *)
Record Serializer : Type := {
  pack : Value -> Value;
  unpack : Value -> Value
}.

(** ** The monad of the engine: store state and rejections *)

Inductive Error : Type :=
| StoreErr (e : StoreError)   (* a rejection of the pool *)
| Thrown (message : string)   (* throw new Error(message) *)
| TypeError.                  (* thrown by the runtime *)

Definition M (S A : Type) : Type := S -> (Error + A) * S.

Definition ret {S A : Type} (a : A) : M S A := fun s => (inr a, s).

Definition bind {S A B : Type} (m : M S A) (k : A -> M S B) : M S B :=
  fun s =>
    match m s with
    | (inl e, s') => (inl e, s')
    | (inr a, s') => k a s'
    end.

Definition throw {S A : Type} (e : Error) : M S A := fun s => (inl e, s).

(** [await p] for a call [p] of the pool *)
Definition await {S A : Type} (p : S -> (StoreError + A) * S) : M S A :=
  fun s =>
    match p s with
    | (inl e, s') => (inl (StoreErr e), s')
    | (inr a, s') => (inr a, s')
    end.

(** [try { m } catch (err) { }] *)
Definition try_ignore {S A : Type} (m : M S A) : M S unit :=
  fun s => (inr tt, snd (m s)).

Declare Scope engine_scope.
Delimit Scope engine_scope with engine.
Notation "x <- m ;; k" := (bind m (fun x => k))
  (at level 100, m at next level, right associativity) : engine_scope.
Notation "m ;;; k" := (bind m (fun _ => k))
  (at level 100, right associativity) : engine_scope.

(** ** The engine *)

Section Engine.
Context {S : Type} {pool : MysqlPool S}.
Variable g : Generation.
Variable codec : Serializer.

Local Open Scope engine_scope.

(** [fromMysql] *)
Definition fromMysql (mobj : JsObj) : JsObj :=
  match obj_get c_data mobj with
  | Some d => if truthy d then obj_set c_data (unpack codec d) mobj
              else mobj
  | None => mobj
  end.

(** The entries of [job] with the payload packed: [keys] and [vals] of
    [add]. *)
Definition packed (job : JsObj) : JsObj :=
  map (fun kv : Column * Value =>
         match fst kv with
         | c_data => (fst kv, pack codec (snd kv))
         | _ => kv
         end) job.

Definition add (job : JsObj) : M S unit :=
  let keys := obj_keys (packed job) in
  let vals := obj_values (packed job) in
  _ <- await (execute (InsertInto keys) vals) ;;
  ret tt.

Definition getById (id : string) : M S (option JsObj) :=
  rows <- await (execute (SelectWhere [c_id]) [VStr id]) ;;
  ret (option_map fromMysql (first_row rows)).

Definition get (q : JsObj) : M S (list JsObj) :=
  rows <- await (execute (SelectWhere (obj_keys q)) (obj_values q)) ;;
  match rows with
  | Rows results => ret (map fromMysql results)
  | _ => throw TypeError
  end.

(** [reserve] of the pooled engine and [atomicFindReady] of the
    connected one: the same body; [wId] is only logged. *)
Definition reserve (wId : string) : M S (option JsObj) :=
  res <- await (query CallProcedure) ;;
  match res with
  | Sets (first :: _) => ret (option_map fromMysql (hd_error first))
  | _ => throw TypeError
  end.

Definition atomicFindReady (wId : string) : M S (option JsObj) :=
  reserve wId.

Definition updateById (id : string) (values : JsObj) : M S unit :=
  rows <- await (execute (UpdateSetWhereId (obj_keys values))
                   (obj_values values ++ [VStr id])%list) ;;
  if Nat.eqb (affectedRows rows) 0
  then throw (Thrown "updated 0 jobs instead of 1")
  else ret tt.

Definition removeById (id : string) : M S bool :=
  rows <- await (execute (DeleteWhere [c_id]) [VStr id]) ;;
  if Nat.eqb (affectedRows rows) 0
  then throw (Thrown "deleted 0 jobs instead of 1")
  else ret true.

Definition remove (q : JsObj) : M S nat :=
  rows <- await (execute (DeleteWhere (obj_keys q)) (obj_values q)) ;;
  ret (affectedRows rows).

Definition removeByStatus (status : JobStatus) : M S nat :=
  rows <- await (execute (DeleteWhere [c_status])
                   [VStr (status_name status)]) ;;
  ret (affectedRows rows).

Definition clear : M S nat :=
  rows <- await (execute DeleteAll []) ;;
  ret (affectedRows rows).

(** [now] is [new Date()] of the caller. *)
Definition refreshExpired (now : Z) : M S nat :=
  rows <- await (execute UpdateExpired [VStr "processing"; VDate now]) ;;
  ret (affectedRows rows).

Definition refreshStalled (now : Z) : M S nat :=
  rows <- await (execute UpdateStalled [VStr "processing"; VDate now]) ;;
  ret (affectedRows rows).

(** [indexes] of [initSchema] and of [createTable] *)
Definition indexes : list Stmt :=
  match g with
  | Pooled => [AddIndex "status" [c_status]]
  | Connected =>
      [AddIndex "status_expires" [c_status; c_expires];
       AddIndex "status_stalls" [c_status; c_stalls]]
  end.

(** [for (const i of indexes) { try { await execute(i) } catch { } }] *)
Fixpoint add_indexes (todo : list Stmt) : M S unit :=
  match todo with
  | [] => ret tt
  | i :: rest =>
      try_ignore (await (execute i [])) ;;;
      add_indexes rest
  end.

(** [initSchema] of the pooled engine, [createTable] of the connected
    one. *)
Definition initSchema : M S unit :=
  _ <- await (execute CreateTable []) ;;
  add_indexes indexes ;;;
  _ <- await (query DropProcedure) ;;
  _ <- await (query CreateProcedure) ;;
  ret tt.

Definition createTable : M S unit := initSchema.
End Engine.

(** ** The server *)

(** The state of the server that the engine can observe.  The rows
    are listed in the order of the table, which is the server's: [slot]
    is the place it gives a new row, counted from the front and taken
    modulo the places there are.  [seek] is the access path of a SELECT
    with LIMIT 1 and no ORDER BY: of the rows that satisfy the WHERE
    clause, listed in the order of the table, the server returns the
    one at that position, taken modulo their number. *)
Record DB : Type := mkDB {
  online : bool;               (* the connection is up *)
  clock : Z;                   (* the time of the server *)
  has_table : bool;            (* the job table exists *)
  index_names : list string;   (* the indexes added by ALTER TABLE *)
  has_sproc : bool;            (* the stored procedure is installed *)
  rows : list Row;             (* the rows of the job table *)
  slot : Row -> list Row -> nat;   (* the place of a new row *)
  seek : list Row -> nat       (* the row a LIMIT 1 meets first *)
}.

Definition with_rows (rs : list Row) (db : DB) : DB :=
  mkDB (online db) (clock db) (has_table db) (index_names db)
    (has_sproc db) rs (slot db) (seek db).

Definition with_table (db : DB) : DB :=
  mkDB (online db) (clock db) true [] (has_sproc db) [] (slot db) (seek db).

Definition with_index (index : string) (db : DB) : DB :=
  mkDB (online db) (clock db) (has_table db) (index :: index_names db)
    (has_sproc db) (rows db) (slot db) (seek db).

Definition with_sproc (b : bool) (db : DB) : DB :=
  mkDB (online db) (clock db) (has_table db) (index_names db) b (rows db)
    (slot db) (seek db).

(** [NOW()]: the time of the server, in whole seconds. *)
Definition NOW (db : DB) : Z := 1000 * (clock db / 1000).

(** The table with a row more, at the place [n]. *)
Definition put_at (n : nat) (r : Row) (rs : list Row) : list Row :=
  let i := (n mod Datatypes.S (List.length rs))%nat in
  (firstn i rs ++ r :: skipn i rs)%list.

(** The row at the position [n] of the candidates of a SELECT with
    LIMIT 1. *)
Definition choose (n : nat) (cands : list Row) : option Row :=
  nth_error cands (n mod List.length cands).

(** [a = b] of SQL on the values the model stores: NULL equals nothing. *)
Definition sql_eq (a b : Value) : bool :=
  match a, b with
  | VStr x, VStr y => (x =? y)%string
  | VNum x, VNum y => (x =? y)%Z
  | VDate x, VDate y => (x =? y)%Z
  | _, _ => false
  end.

(** [a <= b] of SQL: NULL is below nothing. *)
Definition sql_le (a b : Value) : bool :=
  match a, b with
  | VNum x, VNum y => (x <=? y)%Z
  | VDate x, VDate y => (x <=? y)%Z
  | _, _ => false
  end.

(** [k1 = ? AND k2 = ? ...] on a row *)
Definition matches (conds : list (Column * Value)) (r : Row) : bool :=
  forallb (fun kv => sql_eq (column_value (fst kv) r) (snd kv)) conds.

(** [SET k1 = ?, k2 = ? ...] on a row, left to right *)
Fixpoint assign_all (sets : list (Column * Value)) (r : Row)
  : StoreError + Row :=
  match sets with
  | [] => inr r
  | (c, v) :: rest =>
      match assign c v r with
      | inl e => inl e
      | inr r' => assign_all rest r'
      end
  end.

Definition mentions (keys : list Column) (k : Column) : bool :=
  existsb (column_eqb k) keys.

Fixpoint distinct (keys : list Column) : bool :=
  match keys with
  | [] => true
  | k :: rest => negb (mentions rest k) && distinct rest
  end.

Definition has_id (i : string) (r : Row) : bool := (Job.id r =? i)%string.

Fixpoint unique_ids (rs : list Row) : bool :=
  match rs with
  | [] => true
  | r :: rest => negb (existsb (has_id (Job.id r)) rest) && unique_ids rest
  end.

(** A row before the values of an INSERT are stored. *)
Definition blank : Row :=
  Job.mk "" None None 0 None None None None ready 0 0 0 None.

(** [UPDATE ... SET sets WHERE conds]: the rows after the update and the
    number of rows matched. *)
Fixpoint update_rows (sets conds : list (Column * Value)) (rs : list Row)
  : StoreError + (list Row * nat) :=
  match rs with
  | [] => inr ([], 0%nat)
  | r :: rest =>
      match update_rows sets conds rest with
      | inl e => inl e
      | inr (rest', n) =>
          if matches conds r
          then match assign_all sets r with
               | inl e => inl e
               | inr r' => inr (r' :: rest', Datatypes.S n)
               end
          else inr (r :: rest', n)
      end
  end.

(** The statement of [refreshExpired]:
    [UPDATE t SET status = 'ready', workerid = NULL,
       attempts = attempts + 1,
       expires = DATE_ADD(NOW(), INTERVAL (expirems / 1000) SECOND)
     WHERE `status` = ? AND expires <= ?]
    with its WHERE clause ([lease_expired]) and its SET clause
    ([requeue_expired]). *)
Definition lease_expired (st t : Value) (r : Row) : bool :=
  sql_eq (column_value c_status r) st && sql_le (column_value c_expires r) t.

(** [DATE_ADD(NOW(), INTERVAL (ms / 1000) SECOND)] stored in a DATETIME
    column: NULL for a NULL interval; the quotient is a decimal number,
    the sum has its fraction of a second, and the column rounds it. *)
Definition DATE_ADD (t : Z) (ms : option Z) : StoreError + option Z :=
  match ms with
  | None => inr None
  | Some d =>
      if in_datetime (datetime (t + d)) then inr (Some (datetime (t + d)))
      else inl ER_DATETIME_FUNCTION_OVERFLOW
  end.

Definition requeue_expired (t : Z) (r : Row) : StoreError + Row :=
  match INT (Job.attempts r + 1), DATE_ADD t (Job.expirems r) with
  | inl e, _ => inl e
  | inr _, inl e => inl e
  | inr n, inr lease =>
      inr (Job.mk (Job.id r) None (Job.name r) (Job.created r) lease
             (Job.expirems r) (Job.stalls r) (Job.stallms r) ready
             n (Job.retryx r) (Job.retries r) (Job.data r))
  end.

(** The statement of [refreshStalled]:
    [UPDATE t SET status = 'ready', workerid = NULL,
       attempts = attempts + 1,
       stalls = DATE_ADD(NOW(), INTERVAL (stallms / 1000) SECOND)
     WHERE `status` = ? AND stalls <= ?]. *)
Definition stalled (st t : Value) (r : Row) : bool :=
  sql_eq (column_value c_status r) st && sql_le (column_value c_stalls r) t.

Definition requeue_stalled (t : Z) (r : Row) : StoreError + Row :=
  match INT (Job.attempts r + 1), DATE_ADD t (Job.stallms r) with
  | inl e, _ => inl e
  | inr _, inl e => inl e
  | inr n, inr deadline =>
      inr (Job.mk (Job.id r) None (Job.name r) (Job.created r)
             (Job.expires r) (Job.expirems r) deadline (Job.stallms r) ready
             n (Job.retryx r) (Job.retries r) (Job.data r))
  end.

(** The rows after a bulk UPDATE that rewrites the rows its WHERE clause
    holds of; one refusal refuses the statement. *)
Fixpoint requeue_all (due : Row -> bool) (requeue : Row -> StoreError + Row)
    (rs : list Row) : StoreError + list Row :=
  match rs with
  | [] => inr []
  | r :: rest =>
      match (if due r then requeue r else inr r),
            requeue_all due requeue rest with
      | inl e, _ => inl e
      | inr _, inl e => inl e
      | inr r', inr rest' => inr (r' :: rest')
      end
  end.

Section Server.
Variable g : Generation.

Definition known (keys : list Column) : bool :=
  forallb (mentions (columns g)) keys.

(** [INSERT INTO t (keys) VALUES (?...)] *)
Definition insert (keys : list Column) (args : list Value) (db : DB)
  : (StoreError + Result) * DB :=
  if negb (Nat.eqb (List.length args) (List.length keys))
  then (inl ER_WRONG_ARGUMENTS, db)
  else if negb (known keys) then (inl ER_BAD_FIELD_ERROR, db)
  else if negb (distinct keys) then (inl ER_FIELD_SPECIFIED_TWICE, db)
  else if negb (forallb (mentions keys) (required g))
  then (inl ER_NO_DEFAULT_FOR_FIELD, db)
  else match assign_all (combine keys args) blank with
       | inl e => (inl e, db)
       | inr r =>
           if existsb (has_id (Job.id r)) (rows db)
           then (inl ER_DUP_ENTRY, db)
           else (inr (Header 1),
                 with_rows (put_at (slot db r (rows db)) r (rows db)) db)
       end.

(** [SELECT * FROM t WHERE k1 = ? AND ...] *)
Definition select (keys : list Column) (args : list Value) (db : DB)
  : (StoreError + Result) * DB :=
  if negb (Nat.eqb (List.length args) (List.length keys))
  then (inl ER_WRONG_ARGUMENTS, db)
  else if negb (known keys) then (inl ER_BAD_FIELD_ERROR, db)
  else (inr (Rows (map (row_to_obj g)
                     (filter (matches (combine keys args)) (rows db)))),
        db).

(** [UPDATE t SET k1 = ?, ... WHERE `id` = ?] *)
Definition update (keys : list Column) (args : list Value) (db : DB)
  : (StoreError + Result) * DB :=
  if negb (Nat.eqb (List.length args) (Datatypes.S (List.length keys)))
  then (inl ER_WRONG_ARGUMENTS, db)
  else if negb (known keys) then (inl ER_BAD_FIELD_ERROR, db)
  else
    let sets := combine keys (firstn (List.length keys) args) in
    let conds := [(c_id, nth (List.length keys) args VNull)] in
    match update_rows sets conds (rows db) with
    | inl e => (inl e, db)
    | inr (rs, n) =>
        if Nat.eqb n 0 then (inr (Header 0), db)
        else if unique_ids rs
        then (inr (Header n), with_rows rs db)
        else (inl ER_DUP_ENTRY, db)
    end.

(** [DELETE FROM t WHERE k1 = ? AND ...] *)
Definition delete (keys : list Column) (args : list Value) (db : DB)
  : (StoreError + Result) * DB :=
  if negb (Nat.eqb (List.length args) (List.length keys))
  then (inl ER_WRONG_ARGUMENTS, db)
  else if negb (known keys) then (inl ER_BAD_FIELD_ERROR, db)
  else
    let gone := matches (combine keys args) in
    (inr (Header (List.length (filter gone (rows db)))),
     with_rows (filter (fun r => negb (gone r)) (rows db)) db).

(** The body of the stored procedure, between START TRANSACTION and
    COMMIT:
    [SET @j_id := NULL;
     SELECT id INTO @j_id FROM t WHERE status = 'ready' LIMIT 1;
     IF (@j_id IS NOT NULL) THEN
       UPDATE t SET status = 'processing' WHERE id = @j_id;
     END IF;
     SELECT * FROM t WHERE id = @j_id;]
    run without interleaving.  The first SELECT has no ORDER BY: which
    of the ready rows it returns is the choice of the server. *)
Definition reserve_sproc (db : DB) : list (list JsObj) * DB :=
  let j_id :=
    option_map Job.id
      (choose (seek db (rows db))
         (filter (fun r => status_eqb (Job.status r) ready) (rows db))) in
  match j_id with
  | Some i =>
      let db' :=
        with_rows
          (map (fun r => if has_id i r then set_status processing r else r)
             (rows db)) db in
      ([map (row_to_obj g) (filter (has_id i) (rows db'))], db')
  | None => ([[]], db)
  end.

(** The bulk UPDATE of [refreshExpired] and of [refreshStalled]; the
    table of the pooled generation has no column [attempts]. *)
Definition scan (due : Value -> Value -> Row -> bool)
    (requeue : Z -> Row -> StoreError + Row) (args : list Value) (db : DB)
  : (StoreError + Result) * DB :=
  match g, args with
  | Pooled, _ => (inl ER_BAD_FIELD_ERROR, db)
  | Connected, [st; t] =>
      match requeue_all (due st t) (requeue (NOW db)) (rows db) with
      | inl e => (inl e, db)
      | inr rs =>
          (inr (Header (List.length (filter (due st t) (rows db)))),
           with_rows rs db)
      end
  | Connected, _ => (inl ER_WRONG_ARGUMENTS, db)
  end.

(** One statement on the server.  The server refuses a statement before
    it changes anything, or applies it as a whole; the answer reaches
    the engine. *)
Definition run (st : Stmt) (args : list Value) (db : DB)
  : (StoreError + Result) * DB :=
  if negb (online db) then (inl CR_SERVER_LOST, db)
  else
    match st with
    | CreateTable =>
        (inr (Header 0), if has_table db then db else with_table db)
    | DropProcedure => (inr (Header 0), with_sproc false db)
    | CreateProcedure =>
        if has_sproc db then (inl ER_SP_ALREADY_EXISTS, db)
        else (inr (Header 0), with_sproc true db)
    | CallProcedure =>
        if negb (has_sproc db) then (inl ER_SP_DOES_NOT_EXIST, db)
        else if negb (has_table db) then (inl ER_NO_SUCH_TABLE, db)
        else (inr (Sets (fst (reserve_sproc db))), snd (reserve_sproc db))
    | AddIndex index on =>
        if negb (has_table db) then (inl ER_NO_SUCH_TABLE, db)
        else if negb (known on) then (inl ER_BAD_FIELD_ERROR, db)
        else if existsb (String.eqb index) (index_names db)
        then (inl ER_DUP_KEYNAME, db)
        else (inr (Header 0), with_index index db)
    | InsertInto keys =>
        if negb (has_table db) then (inl ER_NO_SUCH_TABLE, db)
        else insert keys args db
    (* an empty WHERE or SET clause is not in the grammar *)
    | SelectWhere [] | UpdateSetWhereId [] | DeleteWhere [] =>
        (inl ER_PARSE_ERROR, db)
    | SelectWhere keys =>
        if negb (has_table db) then (inl ER_NO_SUCH_TABLE, db)
        else select keys args db
    | UpdateSetWhereId keys =>
        if negb (has_table db) then (inl ER_NO_SUCH_TABLE, db)
        else update keys args db
    | DeleteWhere keys =>
        if negb (has_table db) then (inl ER_NO_SUCH_TABLE, db)
        else delete keys args db
    | DeleteAll =>
        if negb (has_table db) then (inl ER_NO_SUCH_TABLE, db)
        else (inr (Header (List.length (rows db))), with_rows [] db)
    | UpdateExpired =>
        if negb (has_table db) then (inl ER_NO_SUCH_TABLE, db)
        else scan lease_expired requeue_expired args db
    | UpdateStalled =>
        if negb (has_table db) then (inl ER_NO_SUCH_TABLE, db)
        else scan stalled requeue_stalled args db
    end.

(** The pool of an engine connected to the server. *)
Definition Server : MysqlPool DB :=
  {| execute := run; query := fun st => run st [] |}.
End Server.

(** A store on which the bootstrap has run and that is reachable. *)
Definition bootstrapped (db : DB) : bool :=
  online db && has_table db && has_sproc db.

(** A pool whose answer to a statement is given: [None] resolves,
    [Some e] rejects with [e]. *)
Definition Answering (outcome : Stmt -> option StoreError) : MysqlPool unit :=
  let answer (st : Stmt) (s : unit) :=
    match outcome st with
    | Some e => (inl e, s)
    | None => (inr (Header 0), s)
    end in
  {| execute := fun st _ => answer st; query := answer |}.

(** ** Notions used in the statements *)

(** The store without its connection. *)
Definition unplugged (db : DB) : DB :=
  mkDB false (clock db) (has_table db) (index_names db) (has_sproc db)
    (rows db) (slot db) (seek db).

(** The row that the reservation takes: the choice of the server among
    the ready rows. *)
Definition picked (db : DB) : option Row :=
  choose (seek db (rows db))
    (filter (fun r => status_eqb (Job.status r) ready) (rows db)).

(** The table after the claim of [r]. *)
Definition claimed (db : DB) (r : Row) : DB :=
  with_rows
    (map (fun x => if has_id (Job.id r) x then set_status processing x
                   else x) (rows db)) db.

(** [status = 'processing' AND expires <= now] and
    [status = 'processing' AND stalls <= now], read on the columns. *)
Definition lease_due (now : Z) (r : Row) : bool :=
  status_eqb (Job.status r) processing &&
  match Job.expires r with Some e => (e <=? now)%Z | None => false end.

Definition stall_due (now : Z) (r : Row) : bool :=
  status_eqb (Job.status r) processing &&
  match Job.stalls r with Some s => (s <=? now)%Z | None => false end.

(** A row that the SET clause of a scan can rewrite at the time [t] of
    the server, [ms] being its interval: the counter has room for one
    more attempt, and the new deadline, if there is one, is a
    DATETIME. *)
Definition requeueable (t : Z) (ms : option Z) (r : Row) : bool :=
  in_int (Job.attempts r + 1) &&
  match ms with
  | Some d => in_datetime (datetime (t + d))
  | None => true
  end.

(** The columns neither scan writes. *)
Definition same_job (r r' : Row) : Prop :=
  Job.id r' = Job.id r /\ Job.name r' = Job.name r /\
  Job.created r' = Job.created r /\ Job.expirems r' = Job.expirems r /\
  Job.stallms r' = Job.stallms r /\ Job.retryx r' = Job.retryx r /\
  Job.retries r' = Job.retries r /\ Job.data r' = Job.data r.

(** The outcome of a bootstrap whose index statements do not count: the
    first rejection among CREATE TABLE, DROP PROCEDURE and CREATE
    PROCEDURE. *)
Definition first_rejection (table drop create : option StoreError)
  : Error + unit :=
  match table, drop, create with
  | Some e, _, _ => inl (StoreErr e)
  | None, Some e, _ => inl (StoreErr e)
  | None, None, Some e => inl (StoreErr e)
  | None, None, None => inr tt
  end.

(** The server of another process that installs the procedure between
    DROP PROCEDURE and CREATE PROCEDURE, and the server of a user who may
    not alter the table. *)
Definition procedure_exists (st : Stmt) : option StoreError :=
  match st with
  | CreateProcedure => Some ER_SP_ALREADY_EXISTS
  | _ => None
  end.

Definition index_denied (st : Stmt) : option StoreError :=
  match st with
  | AddIndex _ _ => Some ER_ACCESS_DENIED
  | _ => None
  end.

(** A second bootstrap by a user who may not drop the procedure. *)
Definition second_run (st : Stmt) : option StoreError :=
  match st with
  | AddIndex _ _ => Some ER_DUP_KEYNAME
  | DropProcedure => Some ER_ACCESS_DENIED
  | _ => None
  end.

(** ** Example codecs, rows and stores *)

(** The identity codec, and a store of the connected generation that
    holds the job of the example scenario. *)
Definition plain : Serializer := {| pack := fun v => v; unpack := fun v => v |}.

Definition j1 : Row :=
  Job.mk "j1" None None 0 None (Some 5000) None (Some 60000) ready 0 0 0
    (Some "{}").

(** [store] keeps its rows in the order they came and reserves the
    first ready one; [heap] puts a new row in front, reserves the last
    ready one, and its clock shows 2.4 seconds. *)
Definition store (rs : list Row) : DB :=
  mkDB true 1000 true ["status_stalls"; "status_expires"] true rs
    (fun _ others => List.length others) (fun _ => 0%nat).

Definition heap (rs : list Row) : DB :=
  mkDB true 2400 true ["status_stalls"; "status_expires"] true rs
    (fun _ _ => 0%nat)
    (fun all =>
       pred (List.length
               (filter (fun r => status_eqb (Job.status r) ready) all))).

(** A codec that marks the strings it packs, and rows in other states:
    [busy] holds a lease that ends after time 2000 and a stall deadline
    before it; [late] holds a lease that has ended; [stuck] is like
    [busy] and has used up its counter. *)
Definition marked : Serializer :=
  {| pack := fun v =>
       match v with VStr s => VStr ("s:" ++ s) | _ => VNull end;
     unpack := fun v =>
       match v with
       | VStr (String "s" (String ":" s)) => VStr s
       | _ => VNull
       end |}.

Definition busy : Row :=
  Job.mk "j2" (Some "workerA") None 0 (Some 9000) (Some 5000) (Some 1000)
    (Some 60000) processing 0 0 0 None.

Definition late : Row :=
  Job.mk "j3" (Some "workerB") (Some "mail") 0 (Some 1000) (Some 5000) None
    None processing 2 0 0 (Some "s:hello").

Definition stuck : Row :=
  Job.mk "j8" (Some "workerC") None 0 (Some 9000) (Some 5000) (Some 1000)
    (Some 60000) processing 2147483647 0 0 None.



Definition j9 : JsObj :=
  [(c_id, VStr "j9"); (c_name, VStr "mail"); (c_created, VDate 500);
   (c_status, VStr "ready"); (c_attempts, VNum 0); (c_data, VStr "hello")].

Definition j9_row : Row :=
  Job.mk "j9" None (Some "mail") 1000 None None None None ready 0 0 0
    (Some "s:hello").

(** ** Opening and closing *)

(** The events of [DbEvent] that the engine reports to its host with
    [this.event]: [open], and [close] with or without an error. *)
Inductive DbEvent : Type :=
| ev_open
| ev_close (err : option Error).

Section Lifecycle.
Context {S : Type} {pool : MysqlPool S}.
Variable g : Generation.

(** [pool.getConnection()] of the pooled engine, [mysql.createConnection]
    of the connected one: resolves or rejects. *)
Variable connect : S -> (StoreError + unit) * S.

(** [this.pool.end()], [this.connection.end()] *)
Variable finish : S -> (StoreError + unit) * S.

(** [open]: the bootstrap runs in the callback of the connection, and
    the one [catch] receives the rejection of either; the events are
    listed in the order they are reported.  The handler that [open]
    registers on the connection reports a later connection error as
    [close]; it runs after the call and is not part of it. *)
Definition open : S -> list DbEvent * S :=
  fun s =>
    match bind (await connect) (fun _ => initSchema g) s with
    | (inr _, s') => ([ev_open], s')
    | (inl err, s') => ([ev_close (Some err)], s')
    end.

(** [close]: [force] is only logged. *)
Definition close (force : bool) : S -> list DbEvent * S :=
  fun s =>
    match await finish s with
    | (inr _, s') => ([ev_close None], s')
    | (inl err, s') => ([ev_close (Some err)], s')
    end.
End Lifecycle.

(** Connecting to a pool that answers as it is told. *)
Definition answering_connect (outcome : option StoreError) (s : unit)
  : (StoreError + unit) * unit :=
  match outcome with
  | Some e => (inl e, s)
  | None => (inr tt, s)
  end.

(** Connecting to the server succeeds when it is reachable. *)
Definition server_connect (db : DB) : (StoreError + unit) * DB :=
  if online db then (inr tt, db) else (inl CR_SERVER_LOST, db).

(** ** More example rows and jobs *)

(** [idle] has been reserved and carries no deadline; [bare] was added
    without a payload; [j5] lacks the column [created]. *)
Definition idle : Row :=
  Job.mk "j4" None None 0 None (Some 5000) None (Some 60000) processing 0 0 0
    None.

Definition bare : Row :=
  Job.mk "j6" None None 0 None None None None done 1 0 0 None.

Definition j5 : JsObj :=
  [(c_id, VStr "j5"); (c_status, VStr "ready"); (c_attempts, VNum 0)].


Definition unprepared : DB :=
  mkDB true 1000 true [] false [j1] (fun _ others => List.length others)
    (fun _ => 0%nat).

(** * Properties *)

(** ** Basic facts about objects, rows and the server *)

Lemma column_eqb_eq (a b : Column) : column_eqb a b = true <-> a = b.
Proof. destruct a, b; simpl; split; intro H; congruence. Qed.

Lemma column_eqb_refl (a : Column) : column_eqb a a = true.
Proof. now apply column_eqb_eq. Qed.

Lemma column_eqb_neq (a b : Column) : a <> b -> column_eqb a b = false.
Proof.
  intro H. destruct (column_eqb a b) eqn:E; [ | reflexivity ].
  now apply column_eqb_eq in E.
Qed.

Lemma status_eqb_eq (a b : JobStatus) : status_eqb a b = true <-> a = b.
Proof. destruct a, b; simpl; split; intro H; congruence. Qed.

Lemma obj_get_set_same (k : Column) (v : Value) (o : JsObj) :
  obj_get k (obj_set k v o) = Some v.
Proof.
  induction o as [ | [k' v'] o IH ]; simpl.
  - now rewrite column_eqb_refl.
  - destruct (column_eqb k k') eqn:E; simpl.
    + now rewrite column_eqb_refl.
    + now rewrite E.
Qed.

Lemma obj_get_set_other (k k' : Column) (v : Value) (o : JsObj) :
  k' <> k -> obj_get k' (obj_set k v o) = obj_get k' o.
Proof.
  intro Hne. induction o as [ | [k0 v0] o IH ]; simpl.
  - now rewrite column_eqb_neq.
  - destruct (column_eqb k k0) eqn:E; simpl.
    + apply column_eqb_eq in E. subst k0.
      now rewrite !column_eqb_neq.
    + now rewrite IH.
Qed.

Lemma obj_get_row (g : Generation) (c : Column) (r : Row) :
  obj_get c (row_to_obj g r) =
  if mentions (columns g) c then Some (column_value c r) else None.
Proof. destruct g, c; reflexivity. Qed.

Lemma fromMysql_other (codec : Serializer) (c : Column) (o : JsObj) :
  c <> c_data -> obj_get c (fromMysql codec o) = obj_get c o.
Proof.
  intro Hne. unfold fromMysql.
  destruct (obj_get c_data o) as [ d | ]; [ | reflexivity ].
  destruct (truthy d); [ | reflexivity ].
  now apply obj_get_set_other.
Qed.

Lemma bootstrapped_inv (db : DB) :
  bootstrapped db = true ->
  online db = true /\ has_table db = true /\ has_sproc db = true.
Proof.
  unfold bootstrapped. rewrite !andb_true_iff. tauto.
Qed.

Lemma with_rows_same (db : DB) : with_rows (rows db) db = db.
Proof. now destruct db. Qed.

Lemma run_offline (g : Generation) (st : Stmt) (args : list Value) (db : DB) :
  online db = false -> run g st args db = (inl CR_SERVER_LOST, db).
Proof. intro H. unfold run. now rewrite H. Qed.

Lemma filter_ready_none (rs : list Row) :
  Forall (fun r => Job.status r <> ready) rs ->
  filter (fun r => status_eqb (Job.status r) ready) rs = [].
Proof.
  induction 1 as [ | r rs Hr _ IH ]; simpl; [ reflexivity | ].
  destruct (status_eqb (Job.status r) ready) eqn:E; [ | exact IH ].
  now apply status_eqb_eq in E.
Qed.

(** The choice among the candidates of a SELECT with LIMIT 1: none when
    there is no candidate, and one of them otherwise. *)
Lemma choose_nil (n : nat) : choose n [] = None.
Proof. unfold choose. apply nth_error_None. simpl. lia. Qed.

Lemma choose_in (n : nat) (cands : list Row) (r : Row) :
  choose n cands = Some r -> In r cands.
Proof. apply nth_error_In. Qed.

Lemma choose_some (n : nat) (cands : list Row) :
  cands <> [] -> exists r, choose n cands = Some r.
Proof.
  intro Hne. unfold choose.
  destruct (nth_error cands (n mod List.length cands)) as [ r | ] eqn:E;
    [ now exists r | ].
  apply nth_error_None in E.
  assert (List.length cands <> 0)%nat as Hlen
      by (destruct cands; [ easy | discriminate ]).
  pose proof (Nat.mod_upper_bound n _ Hlen). lia.
Qed.

(** The place of a new row splits the table. *)
Lemma put_at_split (n : nat) (r : Row) (rs : list Row) :
  exists l1 l2,
    rs = (l1 ++ l2)%list /\ put_at n r rs = (l1 ++ r :: l2)%list.
Proof.
  unfold put_at.
  exists (firstn (n mod Datatypes.S (List.length rs)) rs),
         (skipn (n mod Datatypes.S (List.length rs)) rs).
  split; [ symmetry; apply firstn_skipn | reflexivity ].
Qed.

(** Unfolding the monad of the engine over the server. *)
Ltac engine :=
  unfold atomicFindReady; unfold add, getById, get, reserve, updateById,
    removeById, remove, removeByStatus, clear, refreshExpired,
    refreshStalled, bind, await, ret, throw; cbn [execute query Server].

(** ** Reservation on a store without ready job *)

Section NoReadyJob.
Variable g : Generation.
Variable codec : Serializer.
Variable db : DB.
Hypothesis Hup : bootstrapped db = true.
Hypothesis Hnone : Forall (fun r => Job.status r <> ready) (rows db).

Lemma call_without_ready :
  run g CallProcedure [] db = (inr (Sets [[]]), db).
Proof.
  destruct (bootstrapped_inv db Hup) as (Ho & Ht & Hs).
  unfold run, reserve_sproc.
  rewrite Ho, Ht, Hs, (filter_ready_none _ Hnone), choose_nil. reflexivity.
Qed.

(** C5: without a ready row the reservation resolves to null and
    leaves the store as it is, under either name of the method; the
    same call on the unreachable store rejects with the error of the
    connection. *)
Theorem reserve_without_ready_job (wId : string) :
  reserve (pool := Server g) codec wId db = (inr None, db) /\
  atomicFindReady (pool := Server g) codec wId db = (inr None, db) /\
  reserve (pool := Server g) codec wId (unplugged db) =
    (inl (StoreErr CR_SERVER_LOST), unplugged db).
Proof.
  split; [ | split ]; engine.
  - now rewrite call_without_ready.
  - now rewrite call_without_ready.
  - now rewrite run_offline.
Qed.
End NoReadyJob.

(** ** Empty partial objects and empty filters *)

(** C10: an empty partial object gives an empty SET clause and an empty
    filter an empty WHERE clause; the server refuses the statement, so
    [updateById], [get] and [remove] reject and the store keeps every
    row, whether or not a row has the id. *)
Theorem empty_object_rejected (g : Generation) (codec : Serializer)
    (id dbtable : string) (db : DB) :
  let refused :=
    StoreErr (if online db then ER_PARSE_ERROR else CR_SERVER_LOST) in
  update_text dbtable (obj_keys []) =
    "UPDATE " ++ dbtable ++ newline ++
    "      SET " ++ newline ++
    "      WHERE `id` = ?" /\
  select_text dbtable (obj_keys []) =
    "SELECT * FROM " ++ dbtable ++ " WHERE " /\
  delete_text dbtable (obj_keys []) =
    "DELETE FROM " ++ dbtable ++ " WHERE " /\
  updateById (pool := Server g) id [] db = (inl refused, db) /\
  get (pool := Server g) codec [] db = (inl refused, db) /\
  remove (pool := Server g) [] db = (inl refused, db).
Proof.
  intro refused. subst refused.
  do 3 (split; [ reflexivity | ]).
  split; [ | split ]; engine; unfold run; now destruct (online db).
Qed.

(** ** Reservation of a ready job *)

Lemma has_id_sym (a b : Row) : has_id (Job.id a) b = has_id (Job.id b) a.
Proof. unfold has_id. apply String.eqb_sym. Qed.

Lemma unique_ids_head (r : Row) (rs : list Row) :
  unique_ids (r :: rs) = true ->
  unique_ids rs = true /\
  forall x, In x rs -> has_id (Job.id r) x = false.
Proof.
  simpl. rewrite andb_true_iff, negb_true_iff. intros [Hr Hrs].
  split; [ exact Hrs | ]. intros x Hx.
  destruct (has_id (Job.id r) x) eqn:E; [ | reflexivity ].
  assert (existsb (has_id (Job.id r)) rs = true) as Hex
      by (apply existsb_exists; eauto).
  congruence.
Qed.

Lemma filter_map_untouched (i : string) (f : Row -> Row) (rs : list Row) :
  (forall x, In x rs -> has_id i x = false) ->
  filter (has_id i) (map (fun x => if has_id i x then f x else x) rs) = [].
Proof.
  induction rs as [ | x rs IH ]; intro H; simpl; [ reflexivity | ].
  rewrite (H x (or_introl eq_refl)). rewrite (H x (or_introl eq_refl)).
  apply IH. intros y Hy. apply H. now right.
Qed.

(** With a primary key, [UPDATE ... WHERE id = i] followed by
    [SELECT * ... WHERE id = i] returns the one updated row. *)
Lemma select_updated (f : Row -> Row) (r : Row) (rs : list Row) :
  (forall x, Job.id (f x) = Job.id x) ->
  unique_ids rs = true -> In r rs ->
  filter (has_id (Job.id r))
    (map (fun x => if has_id (Job.id r) x then f x else x) rs) = [f r].
Proof.
  intros Hf. induction rs as [ | x rs IH ]; intros Hu Hin; [ easy | ].
  destruct (unique_ids_head _ _ Hu) as [Hrs Hx].
  destruct Hin as [ -> | Hin ]; simpl.
  - assert (has_id (Job.id r) r = true) as E
        by (unfold has_id; apply String.eqb_refl).
    rewrite E. unfold has_id at 1. rewrite Hf. fold (has_id (Job.id r) r).
    rewrite E. f_equal. now apply filter_map_untouched.
  - assert (has_id (Job.id r) x = false) as E
        by (rewrite has_id_sym; now apply Hx).
    rewrite E, E. now apply IH.
Qed.

Lemma picked_ready (db : DB) (r : Row) :
  picked db = Some r -> In r (rows db) /\ Job.status r = ready.
Proof.
  unfold picked. intro H. apply choose_in, filter_In in H.
  destruct H as [Hin Hs]. split; [ exact Hin | now apply status_eqb_eq ].
Qed.

Lemma picked_some (db : DB) :
  (exists x, In x (rows db) /\ Job.status x = ready) ->
  exists r, picked db = Some r.
Proof.
  intros (x & Hin & Hs). apply choose_some. intro Hnil.
  assert (In x (filter (fun r => status_eqb (Job.status r) ready) (rows db)))
    as H by (apply filter_In; split; [ exact Hin | now rewrite Hs ]).
  now rewrite Hnil in H.
Qed.

Section Reservation.
Variable g : Generation.
Variable codec : Serializer.
Variable db : DB.
Hypothesis Hup : bootstrapped db = true.
Hypothesis Hkey : unique_ids (rows db) = true.

Lemma call_with_ready (r : Row) :
  picked db = Some r ->
  run g CallProcedure [] db =
  (inr (Sets [[row_to_obj g (set_status processing r)]]), claimed db r).
Proof.
  intro Hpicked.
  destruct (bootstrapped_inv db Hup) as (Ho & Ht & Hs).
  destruct (picked_ready _ _ Hpicked) as [Hin _].
  unfold run, reserve_sproc. fold (picked db).
  rewrite Ho, Ht, Hs, Hpicked. simpl.
  fold (claimed db r). unfold claimed at 1. simpl.
  now rewrite (select_updated (set_status processing) r (rows db)).
Qed.

(** C2, amended: with a ready row in the store, the reservation
    returns one of the ready rows, the choice being the server's, with
    its status set to processing and every other column, workerid
    included, as it is stored; the worker id of the caller has no part
    in the result, and the stored row changes in its status only. *)
Theorem reserve_ready_job (wId : string) :
  (exists x, In x (rows db) /\ Job.status x = ready) ->
  exists (r : Row) (job : JsObj),
    In r (rows db) /\ Job.status r = ready /\
    reserve (pool := Server g) codec wId db =
      (inr (Some job), claimed db r) /\
    job = fromMysql codec (row_to_obj g (set_status processing r)) /\
    obj_get c_id job = Some (VStr (Job.id r)) /\
    obj_get c_status job = Some (VStr "processing") /\
    obj_get c_workerid job = Some (opt_str (Job.workerid r)) /\
    (forall other : string,
        reserve (pool := Server g) codec other db =
        reserve (pool := Server g) codec wId db).
Proof.
  intro Hready. destruct (picked_some db Hready) as [r Hpicked].
  destruct (picked_ready db r Hpicked) as [Hin Hstatus].
  exists r. eexists.
  split; [ exact Hin | ]. split; [ exact Hstatus | ].
  split; [ | split; [ reflexivity | ] ].
  - engine. rewrite (call_with_ready r Hpicked). reflexivity.
  - repeat split.
    + rewrite fromMysql_other by discriminate. now destruct g.
    + rewrite fromMysql_other by discriminate. now destruct g.
    + rewrite fromMysql_other by discriminate. now destruct g.
Qed.
End Reservation.

(** C2, as stated, fails: the job that [reserve] hands to workerA is
    processing, but its workerid is null, in the result and in the
    table. *)
Lemma reserve_leaves_workerid_null :
  bootstrapped (store [j1]) = true /\
  (exists r, In r (rows (store [j1])) /\ Job.status r = ready) /\
  exists job db',
    reserve (pool := Server Connected) plain "workerA" (store [j1]) =
      (inr (Some job), db') /\
    obj_get c_status job = Some (VStr "processing") /\
    obj_get c_workerid job = Some VNull /\
    obj_get c_workerid job <> Some (VStr "workerA") /\
    map Job.workerid (rows db') = [None].
Proof.
  split; [ reflexivity | ].
  split; [ exists j1; split; [ now left | reflexivity ] | ].
  eexists. eexists. split; [ reflexivity | ].
  repeat split; discriminate.
Qed.

(** One caller after the other: when [r] is the only ready row, the call
    after the one that received [r] receives null. *)
Lemma reserve_hands_out_once (g : Generation) (codec : Serializer)
    (db : DB) (r : Row) (first second : string) :
  bootstrapped db = true ->
  unique_ids (rows db) = true ->
  In r (rows db) -> Job.status r = ready ->
  (forall x, In x (rows db) -> Job.status x = ready -> x = r) ->
  exists job,
    reserve (pool := Server g) codec first db =
      (inr (Some job), claimed db r) /\
    obj_get c_id job = Some (VStr (Job.id r)) /\
    reserve (pool := Server g) codec second (claimed db r) =
      (inr None, claimed db r).
Proof.
  intros Hup Hkey Hin Hstatus Honly.
  assert (picked db = Some r) as Hpicked.
  { destruct (picked_some db) as [x Hx]; [ now exists r | ].
    destruct (picked_ready db x Hx) as [Hxin Hxs].
    now rewrite <- (Honly x Hxin Hxs). }
  exists (fromMysql codec (row_to_obj g (set_status processing r))).
  split; [ | split ].
  - engine. now rewrite (call_with_ready g db Hup Hkey r Hpicked).
  - rewrite fromMysql_other by discriminate. now destruct g.
  - engine. rewrite call_without_ready; [ reflexivity | exact Hup | ].
    unfold claimed. simpl. apply Forall_forall. intros x Hx.
    apply in_map_iff in Hx. destruct Hx as (y & <- & Hy).
    destruct (has_id (Job.id r) y) eqn:E; [ discriminate | ].
    intro Hready. rewrite (Honly y Hy Hready) in E.
    unfold has_id in E. now rewrite String.eqb_refl in E.
Qed.

(** ** The recovery scans *)

Lemma lease_expired_due (now : Z) (r : Row) :
  lease_expired (VStr "processing") (VDate now) r = lease_due now r.
Proof.
  unfold lease_expired, lease_due. simpl.
  destruct (Job.status r), (Job.expires r); reflexivity.
Qed.

Lemma stalled_due (now : Z) (r : Row) :
  stalled (VStr "processing") (VDate now) r = stall_due now r.
Proof.
  unfold stalled, stall_due. simpl.
  destruct (Job.status r), (Job.stalls r); reflexivity.
Qed.

Lemma Forall2_at {A : Type} (R : A -> A -> Prop) (l l' : list A) :
  Forall2 R l l' ->
  forall (i : nat) (a : A),
    nth_error l i = Some a -> exists a', nth_error l' i = Some a' /\ R a a'.
Proof.
  induction 1 as [ | x y l l' Hxy _ IH ]; intros [ | i ] a; simpl;
    try discriminate.
  - intros [= <-]. now exists y.
  - apply IH.
Qed.

(** The bulk UPDATE of a scan, row by row. *)
Lemma requeue_all_rows (due : Row -> bool) (f : Row -> StoreError + Row)
    (rs : list Row) :
  forall rs',
    requeue_all due f rs = inr rs' ->
    Forall2 (fun r r' => if due r then f r = inr r' else r' = r) rs rs'.
Proof.
  induction rs as [ | r rs IH ]; intros rs'; simpl.
  - intros [= <-]. constructor.
  - destruct (due r) eqn:E.
    + destruct (f r) as [ e | r1 ] eqn:Er; [ discriminate | ].
      destruct (requeue_all due f rs) as [ e | rest ]; [ discriminate | ].
      intros [= <-]. constructor; [ now rewrite E | now apply IH ].
    + destruct (requeue_all due f rs) as [ e | rest ]; [ discriminate | ].
      intros [= <-]. constructor; [ now rewrite E | now apply IH ].
Qed.

Lemma requeue_all_accepted (due : Row -> bool) (f : Row -> StoreError + Row)
    (rs : list Row) :
  Forall (fun r => due r = true -> exists r', f r = inr r') rs ->
  exists rs', requeue_all due f rs = inr rs'.
Proof.
  induction 1 as [ | r rs Hr _ [rest IH] ]; simpl; [ now exists [] | ].
  rewrite IH. destruct (due r); [ | now exists (r :: rest) ].
  destruct (Hr eq_refl) as [r' ->]. now exists (r' :: rest).
Qed.

Lemma requeue_all_refused (due : Row -> bool) (f : Row -> StoreError + Row)
    (rs : list Row) :
  Exists (fun r => due r = true /\ exists e, f r = inl e) rs ->
  exists e, requeue_all due f rs = inl e.
Proof.
  induction 1 as [ r rs (Hdue & e & Hr) | r rs _ [e IH] ]; simpl.
  - rewrite Hdue, Hr. now exists e.
  - rewrite IH. destruct (if due r then f r else inr r) as [ e' | r' ];
      [ now exists e' | now exists e ].
Qed.

Lemma requeue_all_none (due : Row -> bool) (f : Row -> StoreError + Row)
    (rs : list Row) :
  (forall x, In x rs -> due x = false) -> requeue_all due f rs = inr rs.
Proof.
  induction rs as [ | r rs IH ]; intro H; simpl; [ reflexivity | ].
  rewrite (H r (or_introl eq_refl)), IH; [ reflexivity | ].
  intros x Hx. apply H. now right.
Qed.

Lemma requeue_all_ext (due due' : Row -> bool)
    (f : Row -> StoreError + Row) (rs : list Row) :
  (forall r, due r = due' r) -> requeue_all due f rs = requeue_all due' f rs.
Proof.
  intro H. induction rs as [ | r rs IH ]; simpl; [ reflexivity | ].
  now rewrite H, IH.
Qed.

(** The SET clause of each scan on one row. *)
Lemma requeue_expired_inv (t : Z) (r r' : Row) :
  requeue_expired t r = inr r' ->
  Job.status r' = ready /\ Job.workerid r' = None /\
  Job.attempts r' = Job.attempts r + 1 /\
  Job.expires r' = option_map (fun ms => datetime (t + ms)) (Job.expirems r) /\
  Job.stalls r' = Job.stalls r /\ same_job r r'.
Proof.
  unfold requeue_expired, INT, DATE_ADD, same_job.
  destruct (in_int (Job.attempts r + 1)); [ | discriminate ].
  destruct (Job.expirems r) as [ d | ].
  - destruct (in_datetime (datetime (t + d))); [ | discriminate ].
    intros [= <-]. simpl. tauto.
  - intros [= <-]. simpl. tauto.
Qed.

Lemma requeue_stalled_inv (t : Z) (r r' : Row) :
  requeue_stalled t r = inr r' ->
  Job.status r' = ready /\ Job.workerid r' = None /\
  Job.attempts r' = Job.attempts r + 1 /\
  Job.stalls r' = option_map (fun ms => datetime (t + ms)) (Job.stallms r) /\
  Job.expires r' = Job.expires r /\ same_job r r'.
Proof.
  unfold requeue_stalled, INT, DATE_ADD, same_job.
  destruct (in_int (Job.attempts r + 1)); [ | discriminate ].
  destruct (Job.stallms r) as [ d | ].
  - destruct (in_datetime (datetime (t + d))); [ | discriminate ].
    intros [= <-]. simpl. tauto.
  - intros [= <-]. simpl. tauto.
Qed.

Lemma requeue_expired_room (t : Z) (r : Row) :
  if requeueable t (Job.expirems r) r
  then exists r', requeue_expired t r = inr r'
  else exists e, requeue_expired t r = inl e.
Proof.
  unfold requeueable, requeue_expired, INT, DATE_ADD.
  destruct (in_int (Job.attempts r + 1)); simpl; [ | eauto ].
  destruct (Job.expirems r) as [ d | ]; [ | eauto ].
  destruct (in_datetime (datetime (t + d))); eauto.
Qed.

Lemma requeue_stalled_room (t : Z) (r : Row) :
  if requeueable t (Job.stallms r) r
  then exists r', requeue_stalled t r = inr r'
  else exists e, requeue_stalled t r = inl e.
Proof.
  unfold requeueable, requeue_stalled, INT, DATE_ADD.
  destruct (in_int (Job.attempts r + 1)); simpl; [ | eauto ].
  destruct (Job.stallms r) as [ d | ]; [ | eauto ].
  destruct (in_datetime (datetime (t + d))); eauto.
Qed.

Section Sweeper.
Variable db : DB.
Variable now : Z.
Hypothesis Hon : online db = true.
Hypothesis Htable : has_table db = true.

Lemma run_expired :
  run Connected UpdateExpired [VStr "processing"; VDate now] db =
  match requeue_all (lease_due now) (requeue_expired (NOW db)) (rows db) with
  | inl e => (inl e, db)
  | inr rs =>
      (inr (Header (List.length (filter (lease_due now) (rows db)))),
       with_rows rs db)
  end.
Proof.
  unfold run, scan. rewrite Hon, Htable. cbn [negb].
  rewrite (requeue_all_ext _ (lease_due now))
    by (intro r; apply lease_expired_due).
  destruct (requeue_all (lease_due now) (requeue_expired (NOW db)) (rows db));
    [ reflexivity | ].
  do 4 f_equal. apply filter_ext. intro r. apply lease_expired_due.
Qed.

Lemma run_stalled :
  run Connected UpdateStalled [VStr "processing"; VDate now] db =
  match requeue_all (stall_due now) (requeue_stalled (NOW db)) (rows db) with
  | inl e => (inl e, db)
  | inr rs =>
      (inr (Header (List.length (filter (stall_due now) (rows db)))),
       with_rows rs db)
  end.
Proof.
  unfold run, scan. rewrite Hon, Htable. cbn [negb].
  rewrite (requeue_all_ext _ (stall_due now))
    by (intro r; apply stalled_due).
  destruct (requeue_all (stall_due now) (requeue_stalled (NOW db)) (rows db));
    [ reflexivity | ].
  do 4 f_equal. apply filter_ext. intro r. apply stalled_due.
Qed.

(** The lease scan when the server accepts its statement, and when it
    refuses it. *)
Lemma expired_accepted :
  Forall
    (fun r => lease_due now r = true ->
              requeueable (NOW db) (Job.expirems r) r = true) (rows db) ->
  exists rs,
    requeue_all (lease_due now) (requeue_expired (NOW db)) (rows db) = inr rs.
Proof.
  intro Hroom. apply requeue_all_accepted.
  apply (Forall_impl _ (P := fun r => lease_due now r = true ->
            requeueable (NOW db) (Job.expirems r) r = true));
    [ | exact Hroom ].
  intros r Hr Hdue. pose proof (requeue_expired_room (NOW db) r) as H.
  now rewrite (Hr Hdue) in H.
Qed.

Lemma stalled_accepted :
  Forall
    (fun r => stall_due now r = true ->
              requeueable (NOW db) (Job.stallms r) r = true) (rows db) ->
  exists rs,
    requeue_all (stall_due now) (requeue_stalled (NOW db)) (rows db) = inr rs.
Proof.
  intro Hroom. apply requeue_all_accepted.
  apply (Forall_impl _ (P := fun r => stall_due now r = true ->
            requeueable (NOW db) (Job.stallms r) r = true));
    [ | exact Hroom ].
  intros r Hr Hdue. pose proof (requeue_stalled_room (NOW db) r) as H.
  now rewrite (Hr Hdue) in H.
Qed.

(** A scan leaves a row that is not due where and as it is, whether the
    server accepts the statement or not. *)
Lemma expired_leaves (i : nat) (r : Row) :
  nth_error (rows db) i = Some r -> lease_due now r = false ->
  nth_error (rows (snd (refreshExpired (pool := Server Connected) now db))) i
    = Some r.
Proof.
  intros Hrow Hnot. engine. rewrite run_expired.
  destruct (requeue_all (lease_due now) (requeue_expired (NOW db)) (rows db))
    as [ e | rs ] eqn:Hrs; [ exact Hrow | ].
  destruct (Forall2_at _ _ _ (requeue_all_rows _ _ _ _ Hrs) i r Hrow)
    as (r' & Hr' & Hrr').
  rewrite Hnot in Hrr'. cbn [snd rows with_rows]. now rewrite Hr', Hrr'.
Qed.

Lemma stalled_leaves (i : nat) (r : Row) :
  nth_error (rows db) i = Some r -> stall_due now r = false ->
  nth_error (rows (snd (refreshStalled (pool := Server Connected) now db))) i
    = Some r.
Proof.
  intros Hrow Hnot. engine. rewrite run_stalled.
  destruct (requeue_all (stall_due now) (requeue_stalled (NOW db)) (rows db))
    as [ e | rs ] eqn:Hrs; [ exact Hrow | ].
  destruct (Forall2_at _ _ _ (requeue_all_rows _ _ _ _ Hrs) i r Hrow)
    as (r' & Hr' & Hrr').
  rewrite Hnot in Hrr'. cbn [snd rows with_rows]. now rewrite Hr', Hrr'.
Qed.

(** C3, amended: when the counter of every row that is processing with
    [expires <= now] has room and its new lease is a DATETIME, the
    lease scan returns the number of these rows; each of them becomes
    ready, loses its worker, has its attempts raised by one and its
    lease set to NOW() of the server plus [expirems], rounded to the
    second (NULL when [expirems] is NULL); all its other columns, every
    other row and the rest of the store stay as they are.  When the
    counter of one of these rows is the largest INT, the scan rejects
    and the store is as before. *)
Theorem refreshExpired_requeues :
  (Forall
     (fun r => lease_due now r = true ->
               requeueable (NOW db) (Job.expirems r) r = true) (rows db) ->
   exists db' : DB,
     refreshExpired (pool := Server Connected) now db =
       (inr (List.length (filter (lease_due now) (rows db))), db') /\
     Forall2
       (fun r r' =>
          if lease_due now r
          then Job.status r' = ready /\ Job.workerid r' = None /\
               Job.attempts r' = Job.attempts r + 1 /\
               Job.expires r' =
                 option_map (fun ms => datetime (NOW db + ms))
                   (Job.expirems r) /\
               Job.stalls r' = Job.stalls r /\ same_job r r'
          else r' = r)
       (rows db) (rows db') /\
     with_rows (rows db) db' = db) /\
  (Exists
     (fun r => lease_due now r = true /\ in_int (Job.attempts r + 1) = false)
     (rows db) ->
   exists e : StoreError,
     refreshExpired (pool := Server Connected) now db =
       (inl (StoreErr e), db)).
Proof.
  split.
  - intro Hroom. destruct (expired_accepted Hroom) as [rs Hrs].
    exists (with_rows rs db). split; [ | split ].
    + engine. now rewrite run_expired, Hrs.
    + cbn [rows with_rows].
      eapply Forall2_impl; [ | exact (requeue_all_rows _ _ _ _ Hrs) ].
      intros r r'. cbv beta. destruct (lease_due now r); [ | easy ].
      apply requeue_expired_inv.
    + now destruct db.
  - intro Hfull.
    destruct (requeue_all_refused (lease_due now)
                (requeue_expired (NOW db)) (rows db)) as [e He].
    { apply (Exists_impl _ (P := fun r => lease_due now r = true /\
               in_int (Job.attempts r + 1) = false));
        [ | exact Hfull ].
      intros r [Hdue Hr]. split; [ exact Hdue | ].
      pose proof (requeue_expired_room (NOW db) r) as H.
      unfold requeueable in H. now rewrite Hr in H. }
    exists e. engine. now rewrite run_expired, He.
Qed.

Section StalledOnly.
Variable i : nat.
Variable r : Row.
Variables lease stall : Z.
Hypothesis Hrow : nth_error (rows db) i = Some r.
Hypothesis Hprocessing : Job.status r = processing.
Hypothesis Hlease : Job.expires r = Some lease.
Hypothesis Hfuture : now < lease.
Hypothesis Hstall : Job.stalls r = Some stall.
Hypothesis Hpast : stall <= now.
Hypothesis Hroom :
  Forall
    (fun x => stall_due now x = true ->
              requeueable (NOW db) (Job.stallms x) x = true) (rows db).

(** C4, amended: a processing row whose lease ends after [now] and
    whose stall deadline has passed is requeued by the stall scan
    (ready, no worker, one more attempt, a new stall deadline), when
    the counters of the stalled rows have room and their new deadlines
    are DATETIMEs; and the lease scan leaves the same row as it is. *)
Theorem stall_scan_independent :
  (exists n db' r',
      refreshStalled (pool := Server Connected) now db = (inr n, db') /\
      (0 < n)%nat /\
      nth_error (rows db') i = Some r' /\
      Job.status r' = ready /\ Job.workerid r' = None /\
      Job.attempts r' = Job.attempts r + 1 /\
      Job.stalls r' =
        option_map (fun ms => datetime (NOW db + ms)) (Job.stallms r) /\
      Job.expires r' = Job.expires r /\ same_job r r') /\
  nth_error (rows (snd (refreshExpired (pool := Server Connected) now db))) i
    = Some r.
Proof.
  assert (stall_due now r = true) as Hdue.
  { unfold stall_due. rewrite Hprocessing, Hstall. simpl.
    now apply Z.leb_le. }
  assert (lease_due now r = false) as Hnot.
  { unfold lease_due. rewrite Hprocessing, Hlease. simpl.
    now apply Z.leb_gt. }
  split.
  - destruct (stalled_accepted Hroom) as [rs Hrs].
    destruct (Forall2_at _ _ _ (requeue_all_rows _ _ _ _ Hrs) i r Hrow)
      as (r' & Hr' & Hrr').
    rewrite Hdue in Hrr'.
    exists (List.length (filter (stall_due now) (rows db))),
           (with_rows rs db), r'.
    split; [ engine; now rewrite run_stalled, Hrs | ].
    split.
    + destruct (nth_error_split _ _ Hrow) as (l1 & l2 & Heq & _).
      rewrite Heq, filter_app. simpl. rewrite Hdue.
      rewrite length_app. simpl. lia.
    + split; [ exact Hr' | ]. now apply requeue_stalled_inv.
  - now apply expired_leaves.
Qed.
End StalledOnly.
End Sweeper.

(** C3, as stated, fails: the caller and the server read the same
    clock, 2.4 seconds; the lease of [late] has ended and lasts 5
    seconds; the scan sets it to 7 seconds, which is NOW() of the
    server plus [expirems] and not [now] plus [expirems].  And the row
    [stuck], whose lease has ended at 9 seconds, is not requeued: its
    counter is the largest INT, and the scan rejects. *)
Lemma refreshExpired_not_now_plus_expirems :
  clock (heap [late]) = 2400 /\
  lease_due 2400 late = true /\ Job.expirems late = Some 5000 /\
  (exists db',
      refreshExpired (pool := Server Connected) 2400 (heap [late]) =
        (inr 1%nat, db') /\
      map Job.expires (rows db') = [Some 7000] /\
      map Job.expires (rows db') <> [Some (2400 + 5000)]) /\
  lease_due 9000 stuck = true /\
  refreshExpired (pool := Server Connected) 9000 (heap [stuck]) =
    (inl (StoreErr ER_WARN_DATA_OUT_OF_RANGE), heap [stuck]).
Proof.
  do 3 (split; [ reflexivity | ]).
  split; [ | split; reflexivity ].
  eexists. split; [ reflexivity | ]. split; [ reflexivity | discriminate ].
Qed.

(** C4, as stated, fails: [stuck] is processing, its lease ends at 9
    seconds and its stall deadline has passed at 2 seconds, but its
    counter is the largest INT; the stall scan rejects and [stuck] stays
    processing. *)
Lemma refreshStalled_counter_full :
  Job.status stuck = processing /\
  Job.expires stuck = Some 9000 /\ 2000 < 9000 /\
  Job.stalls stuck = Some 1000 /\ 1000 <= 2000 /\
  Job.attempts stuck = 2147483647 /\
  refreshStalled (pool := Server Connected) 2000 (store [j1; stuck]) =
    (inl (StoreErr ER_WARN_DATA_OUT_OF_RANGE), store [j1; stuck]) /\
  forall n db',
    refreshStalled (pool := Server Connected) 2000 (store [j1; stuck]) <>
    (inr n, db').
Proof.
  do 2 (split; [ reflexivity | ]). split; [ lia | ].
  split; [ reflexivity | ]. split; [ lia | ].
  do 2 (split; [ reflexivity | ]).
  intros n db'. discriminate.
Qed.

(** ** Schema bootstrap *)

Lemma add_indexes_answering (outcome : Stmt -> option StoreError)
    (todo : list Stmt) :
  add_indexes (pool := Answering outcome) todo tt = (inr tt, tt).
Proof.
  induction todo as [ | i todo IH ]; [ reflexivity | ].
  cbn [add_indexes]. unfold bind at 1. unfold try_ignore. cbn [snd].
  now destruct (await (execute i []) tt) as [res []].
Qed.

(** C6, amended: a duplicate-index rejection of an index statement is
    swallowed, and every rejection of CREATE TABLE, of DROP PROCEDURE and
    of CREATE PROCEDURE reaches the caller, the duplicate-procedure
    rejection included; the bootstrap stops at the first of these. *)
Theorem initSchema_rejections (g : Generation)
    (outcome : Stmt -> option StoreError) :
  (forall i, In i (indexes g) ->
             outcome i = None \/ outcome i = Some ER_DUP_KEYNAME) ->
  fst (initSchema (pool := Answering outcome) g tt) =
    first_rejection (outcome CreateTable) (outcome DropProcedure)
      (outcome CreateProcedure) /\
  fst (createTable (pool := Answering outcome) g tt) =
    first_rejection (outcome CreateTable) (outcome DropProcedure)
      (outcome CreateProcedure).
Proof.
  intros _.
  assert (fst (initSchema (pool := Answering outcome) g tt) =
          first_rejection (outcome CreateTable) (outcome DropProcedure)
            (outcome CreateProcedure)) as H.
  { unfold initSchema. unfold bind at 1. unfold await at 1. simpl.
    destruct (outcome CreateTable) as [ e | ]; [ reflexivity | ].
    unfold bind at 1. rewrite add_indexes_answering.
    unfold bind, await, ret. simpl.
    destruct (outcome DropProcedure) as [ e | ]; [ reflexivity | ].
    destruct (outcome CreateProcedure) as [ e | ]; reflexivity. }
  split; [ exact H | exact H ].
Qed.

(** C6, as stated, fails: CREATE PROCEDURE is rejected because the
    procedure exists, nothing else goes wrong, and the bootstrap rejects
    with that error. *)
Lemma initSchema_duplicate_procedure :
  initSchema (pool := Answering procedure_exists) Pooled tt =
    (inl (StoreErr ER_SP_ALREADY_EXISTS), tt) /\
  createTable (pool := Answering procedure_exists) Connected tt =
    (inl (StoreErr ER_SP_ALREADY_EXISTS), tt).
Proof. split; reflexivity. Qed.

(** The loop over the index statements catches whatever they reject
    with, whereas its comment speaks of existing indexes only. *)
Lemma add_indexes_catches_all (g : Generation) :
  initSchema (pool := Answering index_denied) g tt = (inr tt, tt).
Proof. now destruct g. Qed.

(** On the server the bootstrap of a reachable store succeeds; run again,
    its index statements are rejected as duplicates, and it succeeds
    without changing the store. *)
Lemma initSchema_again (g : Generation) (db : DB) :
  online db = true ->
  exists db1,
    initSchema (pool := Server g) g db = (inr tt, db1) /\
    bootstrapped db1 = true /\
    Forall (fun i => run g i [] db1 = (inl ER_DUP_KEYNAME, db1)) (indexes g) /\
    initSchema (pool := Server g) g db1 = (inr tt, db1).
Proof.
  intro Hon. destruct db as [o c t ix sp rs place path]. simpl in Hon. subst o.
  unfold initSchema, add_indexes, bind, try_ignore, await, ret.
  cbn [execute query Server]. unfold run, indexes.
  assert (("status_stalls" =? "status_expires") = false) as Hne
      by reflexivity.
  pose proof String.eqb_refl as Hrefl.
  destruct g, t; cbn -[String.eqb];
    repeat match goal with
      | |- context [existsb ?p ix] =>
          destruct (existsb p ix) eqn:?; cbn -[String.eqb]
      end;
    rewrite ?Hrefl, ?Hne; cbn -[String.eqb];
    eexists; (split; [ reflexivity | ]);
    (split; [ reflexivity | ]);
    (split; [ repeat constructor | ]);
    cbn -[String.eqb]; rewrite ?Hrefl, ?Hne; cbn -[String.eqb];
    repeat match goal with
      | H : existsb _ ix = _ |- _ => rewrite H; cbn -[String.eqb]
      end;
    rewrite ?orb_true_r; reflexivity.
Qed.

(** ** Operations on one row: [updateById], [removeById] *)

Lemma obj_values_length (o : JsObj) :
  List.length (obj_values o) = List.length (obj_keys o).
Proof. unfold obj_values, obj_keys. now rewrite !length_map. Qed.

Lemma combine_obj (o : JsObj) : combine (obj_keys o) (obj_values o) = o.
Proof.
  induction o as [ | [k v] o IH ]; simpl; [ reflexivity | ].
  f_equal. exact IH.
Qed.

Lemma matches_id (i : string) (r : Row) :
  matches [(c_id, VStr i)] r = has_id i r.
Proof. unfold matches, has_id. simpl. apply andb_true_r. Qed.

Lemma matches_status (st : JobStatus) (r : Row) :
  matches [(c_status, VStr (status_name st))] r =
  status_eqb (Job.status r) st.
Proof.
  unfold matches. simpl. rewrite andb_true_r.
  now destruct (Job.status r), st.
Qed.

Lemma absent_has_id (i : string) (rs : list Row) :
  Forall (fun r => Job.id r <> i) rs ->
  forall r, In r rs -> has_id i r = false.
Proof.
  intros H r Hin. rewrite Forall_forall in H.
  unfold has_id. apply String.eqb_neq. now apply H.
Qed.

Lemma update_rows_none (sets conds : list (Column * Value))
    (rs : list Row) :
  (forall r, In r rs -> matches conds r = false) ->
  update_rows sets conds rs = inr (rs, 0%nat).
Proof.
  induction rs as [ | r rs IH ]; intro H; simpl; [ reflexivity | ].
  rewrite IH by (intros x Hx; apply H; now right).
  now rewrite (H r (or_introl eq_refl)).
Qed.

Lemma filter_none {A : Type} (p : A -> bool) (l : list A) :
  (forall x, In x l -> p x = false) ->
  filter p l = [] /\ filter (fun x => negb (p x)) l = l.
Proof.
  induction l as [ | a l IH ]; intro H; simpl; [ easy | ].
  rewrite (H a (or_introl eq_refl)). simpl.
  destruct IH as [IH1 IH2]; [ intros x Hx; apply H; now right | ].
  now rewrite IH1, IH2.
Qed.

Lemma obj_keys_cons (q : JsObj) :
  q <> [] -> exists k ks, obj_keys q = k :: ks.
Proof.
  destruct q as [ | [k v] q ]; [ easy | ]. intros _. now exists k, (obj_keys q).
Qed.

Section ById.
Variable g : Generation.
Variable db : DB.
Variable id : string.
Hypothesis Hon : online db = true.
Hypothesis Htable : has_table db = true.

Lemma run_delete_by_id :
  run g (DeleteWhere [c_id]) [VStr id] db =
  (inr (Header (List.length (filter (has_id id) (rows db)))),
   with_rows (filter (fun r => negb (has_id id r)) (rows db)) db).
Proof.
  unfold run, delete. rewrite Hon, Htable.
  assert (known g [c_id] = true) as -> by now destruct g.
  cbn -[matches filter]. f_equal.
  - do 3 f_equal. apply filter_ext. intro r. apply matches_id.
  - f_equal. apply filter_ext. intro r. now rewrite matches_id.
Qed.

(** C7, amended: when no row has the id, [updateById] with a partial
    object that is not empty and names columns of the table, and
    [removeById], reject with their not-one-row error and leave the
    store as it is; when one row has the id, [removeById] deletes it
    and returns true. *)
Theorem by_id_needs_the_row :
  (Forall (fun r => Job.id r <> id) (rows db) ->
   (forall values : JsObj,
       values <> [] -> known g (obj_keys values) = true ->
       updateById (pool := Server g) id values db =
         (inl (Thrown "updated 0 jobs instead of 1"), db)) /\
   removeById (pool := Server g) id db =
     (inl (Thrown "deleted 0 jobs instead of 1"), db)) /\
  (forall r : Row,
      filter (has_id id) (rows db) = [r] ->
      exists db',
        removeById (pool := Server g) id db = (inr true, db') /\
        rows db' = filter (fun x => negb (has_id id x)) (rows db) /\
        Datatypes.S (List.length (rows db')) = List.length (rows db)).
Proof.
  split.
  - intro Hmissing.
    pose proof (absent_has_id id (rows db) Hmissing) as Hno.
    split.
    + intros values Hne Hknown.
      destruct (obj_keys_cons values Hne) as (k & ks & Hkeys).
      engine. rewrite Hkeys. unfold run. rewrite Hon, Htable. simpl.
      rewrite <- Hkeys. unfold update.
      rewrite length_app, obj_values_length, Nat.add_1_r, Nat.eqb_refl.
      rewrite Hknown. simpl.
      rewrite <- obj_values_length, nth_middle.
      rewrite update_rows_none; [ reflexivity | ].
      intros r Hr. rewrite matches_id. now apply Hno.
    + engine. rewrite run_delete_by_id.
      destruct (filter_none (has_id id) (rows db) Hno) as [-> ->].
      simpl. now rewrite with_rows_same.
  - intros r Hr. eexists. split; [ | split ].
    + engine. rewrite run_delete_by_id, Hr. reflexivity.
    + reflexivity.
    + simpl. rewrite <- (filter_length (has_id id) (rows db)), Hr.
      reflexivity.
Qed.
End ById.

(** C7, as stated, fails: no row has the id, and [updateById] with the
    empty partial object rejects with the parse error of the server, not
    with the not-one-row error. *)
Lemma updateById_empty_parse_error :
  Forall (fun r => Job.id r <> "nope") (rows (store [j1])) /\
  updateById (pool := Server Connected) "nope" [] (store [j1]) =
    (inl (StoreErr ER_PARSE_ERROR), store [j1]) /\
  updateById (pool := Server Connected) "nope" [] (store [j1]) <>
    (inl (Thrown "updated 0 jobs instead of 1"), store [j1]).
Proof.
  split; [ repeat constructor; discriminate | ].
  split; [ reflexivity | discriminate ].
Qed.

(** ** Bulk deletes: [remove], [removeByStatus], [clear] *)

Section Bulk.
Variable g : Generation.
Variable db : DB.
Hypothesis Hon : online db = true.
Hypothesis Htable : has_table db = true.

Lemma run_delete_where (q : JsObj) :
  q <> [] -> known g (obj_keys q) = true ->
  run g (DeleteWhere (obj_keys q)) (obj_values q) db =
  (inr (Header (List.length (filter (matches q) (rows db)))),
   with_rows (filter (fun r => negb (matches q r)) (rows db)) db).
Proof.
  intros Hne Hknown.
  destruct (obj_keys_cons q Hne) as (k & ks & Hkeys).
  unfold run. rewrite Hon, Htable, Hkeys. cbn [negb]. rewrite <- Hkeys.
  unfold delete.
  now rewrite obj_values_length, Nat.eqb_refl, Hknown, combine_obj.
Qed.

Lemma run_delete_status (st : JobStatus) :
  run g (DeleteWhere [c_status]) [VStr (status_name st)] db =
  (inr (Header (List.length
                  (filter (fun r => status_eqb (Job.status r) st)
                     (rows db)))),
   with_rows
     (filter (fun r => negb (status_eqb (Job.status r) st)) (rows db)) db).
Proof.
  pose proof (run_delete_where [(c_status, VStr (status_name st))]) as H.
  cbn [obj_keys obj_values map fst snd] in H.
  rewrite H; [ | discriminate | now destruct g ].
  f_equal.
  - do 3 f_equal. apply filter_ext. intro r. apply matches_status.
  - f_equal. apply filter_ext. intro r. now rewrite matches_status.
Qed.

(** C9, amended: [removeByStatus], [clear], and [remove] with a filter
    that is not empty and names columns of the table, delete the
    matching rows and return how many they deleted; without a matching
    row they return 0, raise nothing and leave the store as it is. *)
Theorem bulk_deletes_return_count :
  (forall st : JobStatus,
      exists db',
        removeByStatus (pool := Server g) st db =
          (inr (List.length (rows db) - List.length (rows db'))%nat, db') /\
        rows db' =
          filter (fun r => negb (status_eqb (Job.status r) st)) (rows db)) /\
  (forall q : JsObj,
      q <> [] -> known g (obj_keys q) = true ->
      exists db',
        remove (pool := Server g) q db =
          (inr (List.length (rows db) - List.length (rows db'))%nat, db') /\
        rows db' = filter (fun r => negb (matches q r)) (rows db)) /\
  clear (pool := Server g) db =
    (inr (List.length (rows db)), with_rows [] db) /\
  (forall st : JobStatus,
      Forall (fun r => Job.status r <> st) (rows db) ->
      removeByStatus (pool := Server g) st db = (inr 0%nat, db)) /\
  (forall q : JsObj,
      q <> [] -> known g (obj_keys q) = true ->
      Forall (fun r => matches q r = false) (rows db) ->
      remove (pool := Server g) q db = (inr 0%nat, db)).
Proof.
  assert (forall p : Row -> bool,
             List.length (filter p (rows db)) =
             (List.length (rows db) -
              List.length (filter (fun r => negb (p r)) (rows db)))%nat)
    as Hcount.
  { intro p. pose proof (filter_length p (rows db)). lia. }
  split; [ | split; [ | split; [ | split ] ] ].
  - intro st.
    exists (with_rows
              (filter (fun r => negb (status_eqb (Job.status r) st))
                 (rows db)) db).
    split; [ | reflexivity ].
    engine. rewrite run_delete_status. cbn [affectedRows rows with_rows].
    now rewrite <- Hcount.
  - intros q Hne Hknown.
    exists (with_rows (filter (fun r => negb (matches q r)) (rows db)) db).
    split; [ | reflexivity ].
    engine. rewrite run_delete_where by assumption.
    cbn [affectedRows rows with_rows]. now rewrite <- Hcount.
  - engine. unfold run. now rewrite Hon, Htable.
  - intros st Hnone. engine. rewrite run_delete_status.
    destruct (filter_none (fun r => status_eqb (Job.status r) st) (rows db))
      as [-> ->].
    + intros r Hr. rewrite Forall_forall in Hnone.
      destruct (status_eqb (Job.status r) st) eqn:E; [ | reflexivity ].
      apply status_eqb_eq in E. now apply Hnone in Hr.
    + simpl. now rewrite with_rows_same.
  - intros q Hne Hknown Hnone. engine.
    rewrite run_delete_where by assumption.
    destruct (filter_none (matches q) (rows db)) as [-> ->].
    + now apply Forall_forall.
    + simpl. now rewrite with_rows_same.
Qed.
End Bulk.

(** C9, as stated, fails: [remove] with the empty filter returns no
    count; the server rejects its statement and the call rejects. *)
Lemma remove_empty_filter_rejects :
  bootstrapped (store [j1]) = true /\
  remove (pool := Server Pooled) [] (store [j1]) =
    (inl (StoreErr ER_PARSE_ERROR), store [j1]) /\
  forall n db',
    remove (pool := Server Pooled) [] (store [j1]) <> (inr n, db').
Proof.
  split; [ reflexivity | ]. split; [ reflexivity | ].
  intros n db'. discriminate.
Qed.

(** ** [add] followed by [getById] *)

Lemma status_of_name_name (s : string) (st : JobStatus) :
  status_of_name s = Some st -> status_name st = s.
Proof.
  unfold status_of_name.
  destruct (s =? "ready") eqn:E1;
    [ intro H; injection H as <-; symmetry; now apply String.eqb_eq | ].
  destruct (s =? "processing") eqn:E2;
    [ intro H; injection H as <-; symmetry; now apply String.eqb_eq | ].
  destruct (s =? "done") eqn:E3;
    [ intro H; injection H as <-; symmetry; now apply String.eqb_eq | ].
  destruct (s =? "failed") eqn:E4;
    [ intro H; injection H as <-; symmetry; now apply String.eqb_eq | ].
  discriminate.
Qed.

(** Opening the conversion of a parameter that a column has taken. *)
Ltac taken H :=
  cbv beta iota delta [assign put CHAR VARCHAR DATETIME INT ENUM] in H;
  repeat match type of H with
    | context [if ?b then _ else _] => destruct b eqn:?
    | context [match status_of_name ?s with _ => _ end] =>
        destruct (status_of_name s) eqn:?
    end;
  try discriminate.

(** A parameter that a column has taken is read back as the column
    keeps it. *)
Lemma assign_value (c : Column) (v : Value) (r r' : Row) :
  assign c v r = inr r' -> column_value c r' = stored c v.
Proof.
  intro H. destruct c, v; taken H; injection H as <-; try reflexivity.
  simpl. f_equal. now apply status_of_name_name.
Qed.

Lemma assign_other (c c' : Column) (v : Value) (r r' : Row) :
  assign c v r = inr r' -> c' <> c ->
  column_value c' r' = column_value c' r.
Proof.
  intros H Hne.
  destruct c, v; taken H; injection H as <-;
    destruct c'; try reflexivity; now elim Hne.
Qed.



Lemma assign_all_untouched (sets : list (Column * Value)) :
  forall (r0 r : Row) (c : Column),
    assign_all sets r0 = inr r ->
    mentions (map fst sets) c = false ->
    column_value c r = column_value c r0.
Proof.
  induction sets as [ | [k v] sets IH ]; intros r0 r c H Hc; simpl in *.
  - now injection H as <-.
  - destruct (assign k v r0) as [ e | r1 ] eqn:E; [ discriminate | ].
    apply orb_false_iff in Hc. destruct Hc as [Hk Hrest].
    rewrite (IH r1 r c H Hrest).
    apply (assign_other k c v r0 r1 E).
    intros ->. now rewrite column_eqb_refl in Hk.
Qed.

Lemma assign_all_get (sets : list (Column * Value)) :
  forall (r0 r : Row) (k : Column) (v : Value),
    assign_all sets r0 = inr r ->
    distinct (map fst sets) = true ->
    obj_get k sets = Some v ->
    column_value k r = stored k v.
Proof.
  induction sets as [ | [c v0] sets IH ]; intros r0 r k v H Hd Hget;
    simpl in *; [ discriminate | ].
  destruct (assign c v0 r0) as [ e | r1 ] eqn:E; [ discriminate | ].
  apply andb_true_iff in Hd. destruct Hd as [Hc Hd].
  apply negb_true_iff in Hc.
  destruct (column_eqb k c) eqn:Ek.
  - apply column_eqb_eq in Ek. subst c. injection Hget as <-.
    rewrite (assign_all_untouched sets r1 r k H Hc).
    now apply (assign_value k v0 r0).
  - now apply (IH r1 r k v).
Qed.



Lemma existsb_false {A : Type} (p : A -> bool) (l : list A) :
  existsb p l = false -> forall x, In x l -> p x = false.
Proof.
  intros H x Hin. destruct (p x) eqn:E; [ | reflexivity ].
  assert (existsb p l = true) by (apply existsb_exists; eauto).
  congruence.
Qed.

Section Packed.
Variable codec : Serializer.

Lemma obj_keys_packed (job : JsObj) :
  obj_keys (packed codec job) = obj_keys job.
Proof.
  unfold obj_keys, packed. rewrite map_map. apply map_ext.
  intros [k v]. now destruct k.
Qed.


Lemma obj_get_packed_other (job : JsObj) (k : Column) :
  k <> c_data -> obj_get k (packed codec job) = obj_get k job.
Proof.
  intro Hne. induction job as [ | [k' v] job IH ]; simpl; [ reflexivity | ].
  destruct k'; simpl; rewrite IH; try reflexivity.
  now rewrite column_eqb_neq.
Qed.
End Packed.

Lemma first_row_find (g : Generation) (p : Row -> bool) (rs : list Row) :
  first_row (Rows (map (row_to_obj g) (filter p rs))) =
  option_map (row_to_obj g) (find p rs).
Proof.
  induction rs as [ | a rs IH ]; simpl; [ reflexivity | ].
  now destruct (p a).
Qed.

(** What the server has checked when [add] resolves. *)
Lemma add_accepted (g : Generation) (codec : Serializer) (job : JsObj)
    (db db' : DB) :
  add (pool := Server g) codec job db = (inr tt, db') ->
  exists (r : Row) (l1 l2 : list Row),
    rows db = (l1 ++ l2)%list /\
    db' = with_rows (l1 ++ r :: l2)%list db /\
    online db = true /\ has_table db = true /\
    known g (obj_keys job) = true /\
    distinct (obj_keys job) = true /\
    forallb (mentions (obj_keys job)) (required g) = true /\
    assign_all (packed codec job) blank = inr r /\
    existsb (has_id (Job.id r)) (rows db) = false.
Proof.
  engine. unfold run.
  destruct (online db); [ | discriminate ].
  destruct (has_table db); [ | discriminate ].
  unfold insert. rewrite combine_obj, obj_keys_packed. cbn [negb].
  destruct (Nat.eqb _ _); [ | discriminate ].
  destruct (known g (obj_keys job)); [ | discriminate ].
  destruct (distinct (obj_keys job)); [ | discriminate ].
  destruct (forallb _ (required g)); [ | discriminate ]. cbn [negb].
  destruct (assign_all (packed codec job) blank) as [ e | r ];
    [ discriminate | ].
  destruct (existsb (has_id (Job.id r)) (rows db)) eqn:E;
    [ discriminate | ].
  destruct (put_at_split (slot db r (rows db)) r (rows db))
    as (l1 & l2 & Hrows & ->).
  intro H. injection H as <-. exists r, l1, l2. tauto.
Qed.

Lemma assign_all_packed (codec : Serializer) (job : JsObj) (r : Row) :
  assign_all (packed codec job) blank = inr r ->
  distinct (obj_keys job) = true ->
  forall k v,
    obj_get k (packed codec job) = Some v -> column_value k r = stored k v.
Proof.
  intros Hrow Hdistinct k v. apply (assign_all_get _ blank r k v Hrow).
  fold (obj_keys (packed codec job)). now rewrite obj_keys_packed.
Qed.

Lemma added_id (codec : Serializer) (job : JsObj) (r : Row) (id : string) :
  assign_all (packed codec job) blank = inr r ->
  distinct (obj_keys job) = true ->
  obj_get c_id job = Some (VStr id) ->
  Job.id r = id.
Proof.
  intros Hrow Hdistinct Hid.
  assert (column_value c_id r = stored c_id (VStr id)) as H.
  { apply (assign_all_packed codec job r Hrow Hdistinct).
    rewrite obj_get_packed_other by discriminate. exact Hid. }
  simpl in H. now injection H.
Qed.


Section RoundTrip.
Variable g : Generation.
Variable codec : Serializer.
Variables db db' : DB.
Variable job : JsObj.
Variable id : string.
Variable payload : Value.
Hypothesis Hid : obj_get c_id job = Some (VStr id).
Hypothesis Hdata : obj_get c_data job = Some payload.
Hypothesis Hblob : truthy (pack codec payload) = true.
Hypothesis Hcodec : unpack codec (pack codec payload) = payload.
Hypothesis Hadd : add (pool := Server g) codec job db = (inr tt, db').

End RoundTrip.


(** * The theorems at concrete stores *)

Lemma reserve_without_ready_job_witness :
  bootstrapped (store [busy]) = true /\
  Forall (fun r => Job.status r <> ready) (rows (store [busy])) /\
  reserve (pool := Server Connected) marked "workerB" (store [busy]) =
    (inr None, store [busy]) /\
  atomicFindReady (pool := Server Connected) marked "workerB" (store [busy]) =
    (inr None, store [busy]) /\
  reserve (pool := Server Connected) marked "workerB"
      (unplugged (store [busy])) =
    (inl (StoreErr CR_SERVER_LOST), unplugged (store [busy])).
Proof.
  assert (Forall (fun r => Job.status r <> ready) (rows (store [busy])))
    as Hnone by (repeat constructor; discriminate).
  split; [ reflexivity | ]. split; [ exact Hnone | ].
  exact (reserve_without_ready_job Connected marked (store [busy])
           eq_refl Hnone "workerB").
Defined.

Lemma reserve_ready_job_witness :
  bootstrapped (heap [j1; busy; j9_row]) = true /\
  unique_ids (rows (heap [j1; busy; j9_row])) = true /\
  (exists x, In x (rows (heap [j1; busy; j9_row])) /\ Job.status x = ready) /\
  exists (r : Row) (job : JsObj),
    In r (rows (heap [j1; busy; j9_row])) /\ Job.status r = ready /\
    reserve (pool := Server Connected) plain "workerA"
        (heap [j1; busy; j9_row]) =
      (inr (Some job), claimed (heap [j1; busy; j9_row]) r) /\
    job = fromMysql plain (row_to_obj Connected (set_status processing r)) /\
    obj_get c_id job = Some (VStr (Job.id r)) /\
    obj_get c_status job = Some (VStr "processing") /\
    obj_get c_workerid job = Some (opt_str (Job.workerid r)) /\
    (forall other : string,
        reserve (pool := Server Connected) plain other
          (heap [j1; busy; j9_row]) =
        reserve (pool := Server Connected) plain "workerA"
          (heap [j1; busy; j9_row])).
Proof.
  assert (exists x, In x (rows (heap [j1; busy; j9_row])) /\
                    Job.status x = ready) as Hready
      by (exists j1; split; [ now left | reflexivity ]).
  do 2 (split; [ reflexivity | ]). split; [ exact Hready | ].
  exact (reserve_ready_job Connected plain (heap [j1; busy; j9_row])
           eq_refl eq_refl "workerA" Hready).
Defined.

Lemma refreshExpired_requeues_witness :
  online (store [late; busy; j1]) = true /\
  has_table (store [late; busy; j1]) = true /\
  Forall
    (fun r => lease_due 2000 r = true ->
              requeueable (NOW (store [late; busy; j1])) (Job.expirems r) r =
                true) (rows (store [late; busy; j1])) /\
  (exists db' : DB,
      refreshExpired (pool := Server Connected) 2000 (store [late; busy; j1]) =
        (inr 1%nat, db') /\
      map Job.status (rows db') = [ready; processing; ready] /\
      map Job.expires (rows db') = [Some 6000; Some 9000; None]) /\
  Exists
    (fun r => lease_due 9000 r = true /\ in_int (Job.attempts r + 1) = false)
    (rows (store [j1; stuck])) /\
  exists e : StoreError,
    refreshExpired (pool := Server Connected) 9000 (store [j1; stuck]) =
      (inl (StoreErr e), store [j1; stuck]).
Proof.
  assert (Forall
            (fun r => lease_due 2000 r = true ->
                      requeueable (NOW (store [late; busy; j1]))
                        (Job.expirems r) r = true)
            (rows (store [late; busy; j1]))) as Hroom
      by (repeat constructor).
  assert (Exists
            (fun r => lease_due 9000 r = true /\
                      in_int (Job.attempts r + 1) = false)
            (rows (store [j1; stuck]))) as Hfull
      by (right; left; split; reflexivity).
  do 2 (split; [ reflexivity | ]). split; [ exact Hroom | ].
  split.
  - destruct (refreshExpired_requeues (store [late; busy; j1]) 2000
                eq_refl eq_refl) as [Hok _].
    destruct (Hok Hroom) as (db' & Hscan & _ & _).
    exists db'. injection Hscan as <-. now repeat split.
  - split; [ exact Hfull | ].
    destruct (refreshExpired_requeues (store [j1; stuck]) 9000
                eq_refl eq_refl) as [_ Hno].
    exact (Hno Hfull).
Defined.

Lemma stall_scan_independent_witness :
  online (store [j1; busy]) = true /\
  has_table (store [j1; busy]) = true /\
  nth_error (rows (store [j1; busy])) 1 = Some busy /\
  Job.status busy = processing /\
  Job.expires busy = Some 9000 /\ 2000 < 9000 /\
  Job.stalls busy = Some 1000 /\ 1000 <= 2000 /\
  Forall
    (fun x => stall_due 2000 x = true ->
              requeueable (NOW (store [j1; busy])) (Job.stallms x) x = true)
    (rows (store [j1; busy])) /\
  (exists n db' r',
      refreshStalled (pool := Server Connected) 2000 (store [j1; busy]) =
        (inr n, db') /\
      (0 < n)%nat /\
      nth_error (rows db') 1 = Some r' /\
      Job.status r' = ready /\ Job.workerid r' = None /\
      Job.attempts r' = Job.attempts busy + 1 /\
      Job.stalls r' =
        option_map (fun ms => datetime (NOW (store [j1; busy]) + ms))
          (Job.stallms busy) /\
      Job.expires r' = Job.expires busy /\ same_job busy r') /\
  nth_error
    (rows (snd (refreshExpired (pool := Server Connected) 2000
                  (store [j1; busy])))) 1 = Some busy.
Proof.
  assert (2000 < 9000) as Hfuture by lia.
  assert (1000 <= 2000) as Hpast by lia.
  assert (Forall
            (fun x => stall_due 2000 x = true ->
                      requeueable (NOW (store [j1; busy])) (Job.stallms x) x =
                        true) (rows (store [j1; busy]))) as Hroom
      by (repeat constructor).
  do 5 (split; [ reflexivity | ]). split; [ exact Hfuture | ].
  split; [ reflexivity | ]. split; [ exact Hpast | ].
  split; [ exact Hroom | ].
  exact (stall_scan_independent (store [j1; busy]) 2000 eq_refl eq_refl
           1 busy 9000 1000 eq_refl eq_refl eq_refl Hfuture eq_refl Hpast
           Hroom).
Defined.

Lemma initSchema_rejections_witness :
  (forall i, In i (indexes Connected) ->
             second_run i = None \/ second_run i = Some ER_DUP_KEYNAME) /\
  fst (initSchema (pool := Answering second_run) Connected tt) =
    first_rejection (second_run CreateTable) (second_run DropProcedure)
      (second_run CreateProcedure) /\
  fst (createTable (pool := Answering second_run) Connected tt) =
    first_rejection (second_run CreateTable) (second_run DropProcedure)
      (second_run CreateProcedure).
Proof.
  assert (forall i, In i (indexes Connected) ->
                    second_run i = None \/ second_run i = Some ER_DUP_KEYNAME)
    as Hdup.
  { intros i [ <- | [ <- | [] ] ]; right; reflexivity. }
  split; [ exact Hdup | ].
  exact (initSchema_rejections Connected second_run Hdup).
Defined.

Lemma by_id_needs_the_row_witness :
  online (store [j1; busy]) = true /\
  has_table (store [j1; busy]) = true /\
  Forall (fun r => Job.id r <> "j7") (rows (store [j1; busy])) /\
  updateById (pool := Server Pooled) "j7" [(c_status, VStr "done")]
      (store [j1; busy]) =
    (inl (Thrown "updated 0 jobs instead of 1"), store [j1; busy]) /\
  removeById (pool := Server Pooled) "j7" (store [j1; busy]) =
    (inl (Thrown "deleted 0 jobs instead of 1"), store [j1; busy]) /\
  fst (removeById (pool := Server Pooled) "j2" (store [j1; busy])) =
    inr true.
Proof.
  assert (Forall (fun r => Job.id r <> "j7") (rows (store [j1; busy])))
    as Hmissing by (repeat constructor; discriminate).
  do 2 (split; [ reflexivity | ]). split; [ exact Hmissing | ].
  destruct (by_id_needs_the_row Pooled (store [j1; busy]) "j7"
              eq_refl eq_refl) as [Habsent _].
  destruct (Habsent Hmissing) as [Hupdate Hremove].
  split; [ apply Hupdate; [ discriminate | reflexivity ] | ].
  split; [ exact Hremove | ].
  destruct (by_id_needs_the_row Pooled (store [j1; busy]) "j2"
              eq_refl eq_refl) as [_ Hpresent].
  destruct (Hpresent busy eq_refl) as (db' & Hdeleted & _).
  now rewrite Hdeleted.
Defined.

Lemma bulk_deletes_return_count_witness :
  online (store [j1; busy]) = true /\
  has_table (store [j1; busy]) = true /\
  Forall (fun r => Job.status r <> done) (rows (store [j1; busy])) /\
  removeByStatus (pool := Server Connected) done (store [j1; busy]) =
    (inr 0%nat, store [j1; busy]) /\
  clear (pool := Server Connected) (store [j1; busy]) =
    (inr 2%nat, with_rows [] (store [j1; busy])) /\
  fst (remove (pool := Server Connected) [(c_status, VStr "processing")]
         (store [j1; busy])) = inr 1%nat.
Proof.
  assert (Forall (fun r => Job.status r <> done) (rows (store [j1; busy])))
    as Hnone by (repeat constructor; discriminate).
  do 2 (split; [ reflexivity | ]). split; [ exact Hnone | ].
  destruct (bulk_deletes_return_count Connected (store [j1; busy])
              eq_refl eq_refl) as (_ & Hremove & Hclear & Hstatus & _).
  split; [ exact (Hstatus done Hnone) | ]. split; [ exact Hclear | ].
  destruct (Hremove [(c_status, VStr "processing")]) as (db' & Hcount & Hrows);
    [ discriminate | reflexivity | ].
  rewrite Hcount, Hrows. reflexivity.
Defined.


(** * Further properties of the engine *)

(** ** Facts about the statements of the server *)

Lemma sql_eq_eq (a b : Value) : sql_eq a b = true -> a = b.
Proof.
  destruct a, b; simpl; try discriminate; intro H; f_equal.
  - now apply Z.eqb_eq.
  - now apply String.eqb_eq.
  - now apply Z.eqb_eq.
Qed.

Lemma sql_eq_null (a : Value) : sql_eq a VNull = false.
Proof. now destruct a. Qed.

Lemma matches_all (q : JsObj) (r : Row) :
  matches q r = true <->
  forall k v, In (k, v) q -> sql_eq (column_value k r) v = true.
Proof.
  unfold matches. rewrite forallb_forall. split.
  - intros H k v Hin. exact (H (k, v) Hin).
  - intros H [k v] Hin. now apply H.
Qed.

Lemma matches_null (q : JsObj) (k : Column) (r : Row) :
  In (k, VNull) q -> matches q r = false.
Proof.
  intro Hin. destruct (matches q r) eqn:E; [ | reflexivity ].
  rewrite matches_all in E. specialize (E k VNull Hin).
  now rewrite sql_eq_null in E.
Qed.

Lemma find_absent (i : string) (rs : list Row) :
  Forall (fun r => Job.id r <> i) rs -> find (has_id i) rs = None.
Proof.
  intro H. pose proof (absent_has_id i rs H) as Hno.
  induction rs as [ | a rs IH ]; simpl; [ reflexivity | ].
  rewrite (Hno a (or_introl eq_refl)).
  apply IH.
  - now inversion H.
  - intros x Hx. apply Hno. now right.
Qed.

Lemma fromMysql_falsy (codec : Serializer) (g : Generation) (r : Row) :
  Job.data r = None \/ Job.data r = Some "" ->
  fromMysql codec (row_to_obj g r) = row_to_obj g r.
Proof.
  intro H. unfold fromMysql. rewrite obj_get_row.
  assert (mentions (columns g) c_data = true) as -> by now destruct g.
  simpl. now destruct H as [ -> | -> ].
Qed.

Section Lookups.
Variable g : Generation.
Variable codec : Serializer.
Variable db : DB.
Hypothesis Hon : online db = true.
Hypothesis Htable : has_table db = true.

Lemma run_select_where (q : JsObj) :
  q <> [] -> known g (obj_keys q) = true ->
  run g (SelectWhere (obj_keys q)) (obj_values q) db =
  (inr (Rows (map (row_to_obj g) (filter (matches q) (rows db)))), db).
Proof.
  intros Hne Hknown.
  destruct (obj_keys_cons q Hne) as (k & ks & Hkeys).
  unfold run. rewrite Hon, Htable, Hkeys. cbn [negb]. rewrite <- Hkeys.
  unfold select.
  now rewrite obj_values_length, Nat.eqb_refl, Hknown, combine_obj.
Qed.

Lemma run_select_by_id (id : string) :
  run g (SelectWhere [c_id]) [VStr id] db =
  (inr (Rows (map (row_to_obj g) (filter (has_id id) (rows db)))), db).
Proof.
  pose proof (run_select_where [(c_id, VStr id)]) as H.
  cbn [obj_keys obj_values map fst snd] in H.
  rewrite H; [ | discriminate | now destruct g ].
  do 4 f_equal. apply filter_ext. intro r. apply matches_id.
Qed.

Lemma getById_find (c : Serializer) (id : string) :
  getById (pool := Server g) c id db =
  (inr (option_map (fun r => fromMysql c (row_to_obj g r))
          (find (has_id id) (rows db))), db).
Proof.
  engine. rewrite run_select_by_id, first_row_find.
  now destruct (find (has_id id) (rows db)).
Qed.

(** X1: [get] with a filter that is not empty and names columns of the
    table returns, in table order and decoded, the rows that equal the
    filter on every one of its fields, and only those; the store is as
    before. *)
Theorem get_matches_every_field (q : JsObj) :
  q <> [] -> known g (obj_keys q) = true ->
  exists found : list Row,
    get (pool := Server g) codec q db =
      (inr (map (fun r => fromMysql codec (row_to_obj g r)) found), db) /\
    found = filter (matches q) (rows db) /\
    (forall r, In r found <->
               In r (rows db) /\
               forall k v, In (k, v) q -> column_value k r = v /\ v <> VNull).
Proof.
  intros Hne Hknown. exists (filter (matches q) (rows db)).
  split; [ | split; [ reflexivity | ] ].
  - engine. rewrite run_select_where by assumption. cbn.
    now rewrite map_map.
  - intro r. rewrite filter_In, matches_all. split.
    + intros [Hin Hall]. split; [ exact Hin | ]. intros k v Hkv.
      specialize (Hall k v Hkv). split; [ now apply sql_eq_eq | ].
      intros ->. now rewrite sql_eq_null in Hall.
    + intros [Hin Hall]. split; [ exact Hin | ]. intros k v Hkv.
      destruct (Hall k v Hkv) as [Heq Hnull]. rewrite Heq.
      destruct k; simpl in *; unfold opt_str, opt_date, opt_num in *;
        repeat match goal with
          | H : context [match ?o with Some _ => _ | None => _ end] |- _ =>
              destruct o
          | |- context [match ?o with Some _ => _ | None => _ end] =>
              destruct o
          end;
        subst; simpl;
        try apply String.eqb_refl; try apply Z.eqb_refl; congruence.
Qed.

(** X2: a filter that asks for null in a field matches no row, whatever
    the table holds: [col = NULL] is never true.  [get] returns the
    empty list, and [remove] deletes nothing and returns 0. *)
Theorem null_filter_matches_nothing (q : JsObj) (k : Column) :
  In (k, VNull) q -> known g (obj_keys q) = true ->
  get (pool := Server g) codec q db = (inr [], db) /\
  remove (pool := Server g) q db = (inr 0%nat, db).
Proof.
  intros Hin Hknown.
  assert (q <> []) as Hne by (intros ->; exact Hin).
  destruct (filter_none (matches q) (rows db)) as [Hgone Hkept].
  { intros r _. now apply (matches_null q k). }
  split; engine.
  - rewrite run_select_where by assumption. now rewrite Hgone.
  - rewrite (run_delete_where g db Hon Htable q Hne Hknown).
    rewrite Hgone, Hkept. simpl. now rewrite with_rows_same.
Qed.

(** X3: [getById] returns null exactly when no row has the id, and
    otherwise the decoded row that has it; it never changes the
    store. *)
Theorem getById_null_iff_absent (id : string) :
  exists found : option JsObj,
    getById (pool := Server g) codec id db = (inr found, db) /\
    (found = None <-> Forall (fun r => Job.id r <> id) (rows db)) /\
    (forall job, found = Some job -> obj_get c_id job = Some (VStr id)).
Proof.
  eexists. split; [ apply getById_find | ]. split.
  - split.
    + intro H. apply Forall_forall. intros r Hin Heq.
      destruct (find (has_id id) (rows db)) eqn:E; [ discriminate | ].
      apply (find_none _ _ E) in Hin. unfold has_id in Hin.
      rewrite Heq, String.eqb_refl in Hin. discriminate.
    + intro H. now rewrite find_absent.
  - intros job Hjob.
    destruct (find (has_id id) (rows db)) as [ r | ] eqn:E;
      [ | discriminate ].
    injection Hjob as <-. apply find_some in E. destruct E as [_ E].
    rewrite fromMysql_other, obj_get_row by discriminate.
    assert (mentions (columns g) c_id = true) as -> by now destruct g.
    simpl. unfold has_id in E. apply String.eqb_eq in E. now rewrite E.
Qed.

(** X4: a row whose data column is NULL or the empty string is returned
    by [getById] with that column as it is; the codec is not asked, so
    the result is the same for every codec. *)
Theorem getById_without_payload (id : string) (r : Row) :
  find (has_id id) (rows db) = Some r ->
  Job.data r = None \/ Job.data r = Some "" ->
  getById (pool := Server g) codec id db = (inr (Some (row_to_obj g r)), db) /\
  obj_get c_data (row_to_obj g r) = Some (opt_str (Job.data r)) /\
  forall other : Serializer,
    getById (pool := Server g) other id db =
    getById (pool := Server g) codec id db.
Proof.
  intros Hfind Hdata. split; [ | split ].
  - rewrite getById_find, Hfind. simpl. now rewrite fromMysql_falsy.
  - now destruct g.
  - intro other. rewrite !getById_find, Hfind. simpl.
    now rewrite !fromMysql_falsy.
Qed.
End Lookups.

(** ** Facts about the primary key *)

(** With a primary key, the row that has an id splits the table. *)
Lemma split_at_id (r : Row) (rs : list Row) :
  unique_ids rs = true -> In r rs ->
  exists l1 l2,
    rs = (l1 ++ r :: l2)%list /\
    forall x, In x (l1 ++ l2)%list -> has_id (Job.id r) x = false.
Proof.
  induction rs as [ | a rs IH ]; intros H Hin; [ easy | ].
  destruct (unique_ids_head _ _ H) as [Hrs Ha].
  destruct Hin as [ -> | Hin ].
  - exists [], rs. split; [ reflexivity | exact Ha ].
  - destruct (IH Hrs Hin) as (l1 & l2 & -> & Hothers).
    exists (a :: l1), l2. split; [ reflexivity | ].
    intros x [ <- | Hx ]; [ | now apply Hothers ].
    rewrite has_id_sym. apply Ha. apply in_or_app. right. now left.
Qed.

Lemma find_split (i : string) (l1 l2 : list Row) (r : Row) :
  (forall x, In x l1 -> has_id i x = false) -> has_id i r = true ->
  find (has_id i) (l1 ++ r :: l2)%list = Some r.
Proof.
  intros Hl1 Hr. induction l1 as [ | a l1 IH ]; simpl.
  - now rewrite Hr.
  - rewrite (Hl1 a (or_introl eq_refl)). apply IH.
    intros x Hx. apply Hl1. now right.
Qed.

Lemma update_rows_at (sets : list (Column * Value)) (i : string)
    (l1 l2 : list Row) (r r' : Row) :
  (forall x, In x (l1 ++ l2)%list -> has_id i x = false) ->
  has_id i r = true -> assign_all sets r = inr r' ->
  update_rows sets [(c_id, VStr i)] (l1 ++ r :: l2)%list =
  inr ((l1 ++ r' :: l2)%list, 1%nat).
Proof.
  intros Hothers Hr Hset.
  induction l1 as [ | a l1 IH ]; cbn [app update_rows].
  - rewrite update_rows_none.
    + now rewrite matches_id, Hr, Hset.
    + intros x Hx. rewrite matches_id. now apply Hothers.
  - rewrite IH by (intros x Hx; apply Hothers; now right).
    rewrite matches_id, (Hothers a (or_introl eq_refl)). reflexivity.
Qed.

Lemma firstn_values (o : JsObj) (rest : list Value) :
  firstn (List.length (obj_keys o)) (obj_values o ++ rest)%list =
  obj_values o.
Proof.
  induction o as [ | [k v] o IH ]; simpl; [ reflexivity | ].
  now rewrite IH.
Qed.

Lemma unique_ids_replace (l1 l2 : list Row) (r r' : Row) :
  Job.id r' = Job.id r ->
  unique_ids (l1 ++ r' :: l2)%list = unique_ids (l1 ++ r :: l2)%list.
Proof.
  intro Hid. induction l1 as [ | a l1 IH ]; simpl.
  - now rewrite Hid.
  - rewrite IH, !existsb_app. simpl. unfold has_id at 2 5.
    now rewrite Hid.
Qed.

(** ** [add] *)

Section Adding.
Variable g : Generation.
Variable codec : Serializer.
Variable job : JsObj.


(** X6: a job that the empty table would take is rejected as a
    duplicate entry when a row of the table already has its id, and the
    table keeps its rows. *)
Theorem add_rejects_duplicate_id (db db0 : DB) (x : Row) :
  add (pool := Server g) codec job (with_rows [] db) = (inr tt, db0) ->
  In x (rows db) ->
  obj_get c_id job = Some (VStr (Job.id x)) ->
  add (pool := Server g) codec job db = (inl (StoreErr ER_DUP_ENTRY), db).
Proof.
  intros Hempty Hin Hid.
  destruct (add_accepted g codec job _ _ Hempty)
    as (r & _ & _ & _ & _ & Hon & Htable & Hknown & Hdistinct & Hreq & Hrow &
        _).
  simpl in Hon, Htable.
  pose proof (added_id codec job r (Job.id x) Hrow Hdistinct Hid) as Hsame.
  engine. unfold run. rewrite Hon, Htable. unfold insert.
  rewrite combine_obj, obj_values_length, Nat.eqb_refl, obj_keys_packed.
  rewrite Hknown, Hdistinct, Hreq, Hrow. cbn [negb].
  assert (existsb (has_id (Job.id r)) (rows db) = true) as ->.
  { apply existsb_exists. exists x. split; [ exact Hin | ].
    unfold has_id. rewrite Hsame. apply String.eqb_refl. }
  reflexivity.
Qed.

(** X7: a job that names columns of the table, each once, but leaves out
    one that is NOT NULL (id, created, status or a counter) is rejected,
    and the table keeps its rows. *)
Theorem add_rejects_incomplete_job (db : DB) (c : Column) :
  online db = true -> has_table db = true ->
  known g (obj_keys job) = true -> distinct (obj_keys job) = true ->
  In c (required g) -> mentions (obj_keys job) c = false ->
  add (pool := Server g) codec job db =
    (inl (StoreErr ER_NO_DEFAULT_FOR_FIELD), db).
Proof.
  intros Hon Htable Hknown Hdistinct Hc Hmissing.
  engine. unfold run. rewrite Hon, Htable. unfold insert.
  rewrite obj_values_length, Nat.eqb_refl, obj_keys_packed.
  rewrite Hknown, Hdistinct. cbn [negb].
  assert (forallb (mentions (obj_keys job)) (required g) = false) as ->.
  { destruct (forallb (mentions (obj_keys job)) (required g)) eqn:E;
      [ | reflexivity ].
    rewrite forallb_forall in E. now rewrite (E c Hc) in Hmissing. }
  reflexivity.
Qed.

(** X8: [removeById] undoes [add]: after a successful [add] of a job,
    [removeById] on its id returns true and the store is the one before
    the [add]. *)
Theorem add_then_removeById (db db' : DB) (id : string) :
  add (pool := Server g) codec job db = (inr tt, db') ->
  obj_get c_id job = Some (VStr id) ->
  removeById (pool := Server g) id db' = (inr true, db).
Proof.
  intros Hadd Hid.
  destruct (add_accepted g codec job db db' Hadd)
    as (r & l1 & l2 & Hrows & -> & Hon & Htable & Hknown & Hdistinct & Hreq &
        Hrow & Hfresh).
  pose proof (added_id codec job r id Hrow Hdistinct Hid) as Hrid.
  subst id. engine.
  rewrite (run_delete_by_id g _ (Job.id r)) by assumption.
  cbn [rows with_rows]. rewrite Hrows in Hfresh.
  pose proof (existsb_false _ _ Hfresh) as Hno.
  destruct (filter_none (has_id (Job.id r)) l1) as [Hl1 Hl1'];
    [ intros x Hx; apply Hno, in_or_app; now left | ].
  destruct (filter_none (has_id (Job.id r)) l2) as [Hl2 Hl2'];
    [ intros x Hx; apply Hno, in_or_app; now right | ].
  assert (has_id (Job.id r) r = true) as Hr
      by (unfold has_id; apply String.eqb_refl).
  rewrite !filter_app. cbn [filter]. rewrite Hr. cbn [negb].
  rewrite Hl1, Hl1', Hl2, Hl2', <- Hrows. simpl. now destruct db.
Qed.
End Adding.

(** ** [updateById] on a row of the table *)

Section Updating.
Variable g : Generation.
Variable codec : Serializer.
Variable db : DB.
Variable id : string.
Variables l1 l2 : list Row.
Variable r : Row.
Hypothesis Hon : online db = true.
Hypothesis Htable : has_table db = true.
Hypothesis Hrows : rows db = (l1 ++ r :: l2)%list.
Hypothesis Hrow : Job.id r = id.
Hypothesis Hothers : forall x, In x (l1 ++ l2)%list -> Job.id x <> id.

Lemma others_have_not_id :
  forall x, In x (l1 ++ l2)%list -> has_id id x = false.
Proof.
  intros x Hx. unfold has_id. apply String.eqb_neq. now apply Hothers.
Qed.

Lemma updateById_row (values : JsObj) (r' : Row) :
  values <> [] -> known g (obj_keys values) = true ->
  assign_all values r = inr r' ->
  unique_ids (l1 ++ r' :: l2)%list = true ->
  updateById (pool := Server g) id values db =
    (inr tt, with_rows (l1 ++ r' :: l2)%list db).
Proof.
  intros Hne Hknown Hset Hkey.
  destruct (obj_keys_cons values Hne) as (k & ks & Hkeys).
  engine. rewrite Hkeys. unfold run. rewrite Hon, Htable. cbn [negb].
  rewrite <- Hkeys. unfold update.
  rewrite length_app, obj_values_length, Nat.add_1_r, Nat.eqb_refl.
  rewrite Hknown. cbn [negb].
  rewrite firstn_values, combine_obj.
  rewrite <- obj_values_length, nth_middle, Hrows.
  rewrite (update_rows_at values id l1 l2 r r' others_have_not_id);
    [ | unfold has_id; rewrite Hrow; apply String.eqb_refl | exact Hset ].
  cbn [Nat.eqb]. now rewrite Hkey.
Qed.


(** X10: [updateById] does not pack the data field: it stores the
    string it is given, and [getById] then returns that string run
    through [unpack] (or as it is when it is empty), which is the value
    given only if the caller packed it. *)
Theorem updateById_stores_data_unpacked (s : string) :
  unique_ids (rows db) = true ->
  exists db' job,
    updateById (pool := Server g) id [(c_data, VStr s)] db = (inr tt, db') /\
    rows db' = (l1 ++ set_data (Some s) r :: l2)%list /\
    getById (pool := Server g) codec id db' = (inr (Some job), db') /\
    obj_get c_data job =
      Some (if (s =? "")%string then VStr "" else unpack codec (VStr s)).
Proof.
  intro Hkey. rewrite Hrows in Hkey.
  rewrite <- (unique_ids_replace l1 l2 r (set_data (Some s) r) eq_refl)
    in Hkey.
  exists (with_rows (l1 ++ set_data (Some s) r :: l2)%list db).
  exists (fromMysql codec (row_to_obj g (set_data (Some s) r))).
  split; [ | split; [ reflexivity | split ] ].
  - apply updateById_row;
      [ discriminate | now destruct g | reflexivity | exact Hkey ].
  - rewrite getById_find by assumption. cbn [rows with_rows].
    rewrite (find_split id l1 l2 (set_data (Some s) r)); [ reflexivity | | ].
    + intros x Hx. apply others_have_not_id. apply in_or_app. now left.
    + unfold has_id. simpl. rewrite Hrow. apply String.eqb_refl.
  - unfold fromMysql. rewrite obj_get_row.
    assert (mentions (columns g) c_data = true) as -> by now destruct g.
    simpl. destruct (s =? "")%string eqn:E; simpl.
    + apply String.eqb_eq in E. subst s. now destruct g.
    + apply obj_get_set_same.
Qed.
End Updating.

(** ** Parameters and placeholders *)

Lemma assign_fits (c : Column) (v : Value) (r : Row) :
  assign c v r <> inl ER_WRONG_ARGUMENTS.
Proof.
  destruct c, v;
    cbv beta iota delta [assign put CHAR VARCHAR DATETIME INT ENUM];
    repeat match goal with
      | |- context [if ?b then _ else _] => destruct b
      | |- context [match status_of_name ?s with _ => _ end] =>
          destruct (status_of_name s)
      end;
    discriminate.
Qed.

Lemma assign_all_fits (sets : list (Column * Value)) (r : Row) :
  assign_all sets r <> inl ER_WRONG_ARGUMENTS.
Proof.
  revert r. induction sets as [ | [c v] sets IH ]; intro r; simpl;
    [ discriminate | ].
  pose proof (assign_fits c v r) as H.
  destruct (assign c v r) as [ e | r' ]; [ congruence | apply IH ].
Qed.

Lemma update_rows_fits (sets conds : list (Column * Value))
    (rs : list Row) :
  update_rows sets conds rs <> inl ER_WRONG_ARGUMENTS.
Proof.
  induction rs as [ | r rs IH ]; simpl; [ discriminate | ].
  destruct (update_rows sets conds rs) as [ e | [rest n] ];
    [ congruence | ].
  destruct (matches conds r); [ | discriminate ].
  pose proof (assign_all_fits sets r) as H.
  destruct (assign_all sets r); [ congruence | discriminate ].
Qed.

Lemma requeue_all_fits (due : Row -> bool) (f : Row -> StoreError + Row)
    (rs : list Row) :
  (forall r, f r <> inl ER_WRONG_ARGUMENTS) ->
  requeue_all due f rs <> inl ER_WRONG_ARGUMENTS.
Proof.
  intro Hf. induction rs as [ | r rs IH ]; simpl; [ discriminate | ].
  pose proof (Hf r) as Hr.
  destruct (due r).
  - destruct (f r) as [ e | r' ]; [ congruence | ].
    destruct (requeue_all due f rs); [ congruence | discriminate ].
  - destruct (requeue_all due f rs); [ congruence | discriminate ].
Qed.

Lemma requeue_fits (t : Z) (r : Row) :
  requeue_expired t r <> inl ER_WRONG_ARGUMENTS /\
  requeue_stalled t r <> inl ER_WRONG_ARGUMENTS.
Proof.
  unfold requeue_expired, requeue_stalled, INT, DATE_ADD.
  destruct (in_int (Job.attempts r + 1)); [ | split; discriminate ].
  split.
  - destruct (Job.expirems r) as [ d | ]; [ | discriminate ].
    destruct (in_datetime (datetime (t + d))); discriminate.
  - destruct (Job.stallms r) as [ d | ]; [ | discriminate ].
    destruct (in_datetime (datetime (t + d))); discriminate.
Qed.

(** The statements the engine sends, with parameters that fit their
    placeholders, are not rejected for their parameters. *)
Lemma run_fits (g : Generation) (st : Stmt) (args : list Value) (db : DB) :
  match st with
  | InsertInto keys | SelectWhere keys | DeleteWhere keys =>
      List.length args = List.length keys
  | UpdateSetWhereId keys =>
      List.length args = Datatypes.S (List.length keys)
  | UpdateExpired | UpdateStalled => List.length args = 2%nat
  | _ => True
  end ->
  fst (run g st args db) <> inl ER_WRONG_ARGUMENTS.
Proof.
  unfold run. destruct (online db); [ | discriminate ]. cbn [negb].
  destruct st; intro Hfit.
  - discriminate.
  - destruct (has_table db); [ | discriminate ]. cbn [negb].
    destruct (known g on); [ | discriminate ]. cbn [negb].
    destruct (existsb (String.eqb index) (index_names db)); discriminate.
  - discriminate.
  - destruct (has_sproc db); discriminate.
  - destruct (has_sproc db); [ | discriminate ]. cbn [negb].
    destruct (has_table db); discriminate.
  - destruct (has_table db); [ | discriminate ]. cbn [negb].
    unfold insert. rewrite Hfit, Nat.eqb_refl. cbn [negb].
    destruct (known g keys); [ | discriminate ].
    destruct (distinct keys); [ | discriminate ].
    destruct (forallb (mentions keys) (required g)); [ | discriminate ].
    cbn [negb].
    pose proof (assign_all_fits (combine keys args) blank) as H.
    destruct (assign_all (combine keys args) blank) as [ e | r ];
      [ cbn [fst]; congruence | ].
    destruct (existsb (has_id (Job.id r)) (rows db)); discriminate.
  - destruct keys as [ | k ks ]; [ discriminate | ].
    destruct (has_table db); [ | discriminate ]. cbn [negb].
    unfold select. rewrite Hfit, Nat.eqb_refl. cbn [negb].
    destruct (known g (k :: ks)); discriminate.
  - destruct keys as [ | k ks ]; [ discriminate | ].
    destruct (has_table db); [ | discriminate ]. cbn [negb].
    unfold update. rewrite Hfit, Nat.eqb_refl. cbn [negb].
    destruct (known g (k :: ks)); [ | discriminate ]. cbn [negb].
    match goal with
    | |- context [update_rows ?sets ?conds ?rs] =>
        pose proof (update_rows_fits sets conds rs) as H;
        destruct (update_rows sets conds rs) as [ e | [rs' n] ]
    end; [ cbn [fst]; congruence | ].
    destruct (Nat.eqb n 0); [ discriminate | ].
    destruct (unique_ids rs'); discriminate.
  - destruct keys as [ | k ks ]; [ discriminate | ].
    destruct (has_table db); [ | discriminate ]. cbn [negb].
    unfold delete. rewrite Hfit, Nat.eqb_refl. cbn [negb].
    destruct (known g (k :: ks)); discriminate.
  - destruct (has_table db); discriminate.
  - destruct (has_table db); [ | discriminate ]. cbn [negb].
    unfold scan. destruct g; [ discriminate | ].
    destruct args as [ | a [ | b [ | c args ] ] ]; try discriminate.
    pose proof (requeue_all_fits (lease_expired a b)
                  (requeue_expired (NOW db)) (rows db)
                  (fun r => proj1 (requeue_fits (NOW db) r))) as H.
    destruct (requeue_all _ _ (rows db));
      [ cbn [fst]; congruence | discriminate ].
  - destruct (has_table db); [ | discriminate ]. cbn [negb].
    unfold scan. destruct g; [ discriminate | ].
    destruct args as [ | a [ | b [ | c args ] ] ]; try discriminate.
    pose proof (requeue_all_fits (stalled a b)
                  (requeue_stalled (NOW db)) (rows db)
                  (fun r => proj2 (requeue_fits (NOW db) r))) as H.
    destruct (requeue_all _ _ (rows db));
      [ cbn [fst]; congruence | discriminate ].
Qed.

Lemma await_fits {A B : Type} (p : DB -> (StoreError + A) * DB)
    (k : A -> M DB B) (db : DB) :
  fst (p db) <> inl ER_WRONG_ARGUMENTS ->
  (forall a s, fst (k a s) <> inl (StoreErr ER_WRONG_ARGUMENTS)) ->
  fst (bind (await p) k db) <> inl (StoreErr ER_WRONG_ARGUMENTS).
Proof.
  intros Hp Hk. unfold bind, await.
  destruct (p db) as [[e | a] s]; cbn [fst] in *; [ congruence | apply Hk ].
Qed.

(** X13: the parameters always fit the placeholders: no operation of the
    engine is rejected for a wrong number of bound parameters, whatever
    job, filter or partial object it is given. *)
Theorem parameters_fit_placeholders (g : Generation) (codec : Serializer)
    (db : DB) :
  let misfit := StoreErr ER_WRONG_ARGUMENTS in
  (forall job, fst (add (pool := Server g) codec job db) <> inl misfit) /\
  (forall id, fst (getById (pool := Server g) codec id db) <> inl misfit) /\
  (forall q, fst (get (pool := Server g) codec q db) <> inl misfit) /\
  (forall wId,
      fst (reserve (pool := Server g) codec wId db) <> inl misfit) /\
  (forall id values,
      fst (updateById (pool := Server g) id values db) <> inl misfit) /\
  (forall id, fst (removeById (pool := Server g) id db) <> inl misfit) /\
  (forall q, fst (remove (pool := Server g) q db) <> inl misfit) /\
  (forall st,
      fst (removeByStatus (pool := Server g) st db) <> inl misfit) /\
  fst (clear (pool := Server g) db) <> inl misfit /\
  (forall now,
      fst (refreshExpired (pool := Server g) now db) <> inl misfit) /\
  (forall now,
      fst (refreshStalled (pool := Server g) now db) <> inl misfit).
Proof.
  intro misfit. subst misfit.
  repeat split; intros;
    unfold add, getById, get, reserve, updateById, removeById, remove,
      removeByStatus, clear, refreshExpired, refreshStalled;
    cbn [execute query Server];
    (apply await_fits;
     [ apply run_fits;
       rewrite ?length_app, ?obj_values_length, ?Nat.add_1_r; exact I
         || reflexivity
     | intros res s; unfold ret, throw;
       try destruct (Nat.eqb (affectedRows res) 0);
       try (destruct res as [ rs | n | [ | first ss ] ]);
       discriminate ]).
Qed.

(** ** More on the recovery scans *)

Lemma lease_due_earlier (now now' : Z) (r : Row) :
  now' <= now -> lease_due now r = false -> lease_due now' r = false.
Proof.
  unfold lease_due. intro Hle.
  destruct (status_eqb (Job.status r) processing); [ | reflexivity ].
  destruct (Job.expires r) as [ e | ]; [ | reflexivity ]. simpl.
  rewrite !Z.leb_gt. lia.
Qed.

Lemma stall_due_earlier (now now' : Z) (r : Row) :
  now' <= now -> stall_due now r = false -> stall_due now' r = false.
Proof.
  unfold stall_due. intro Hle.
  destruct (status_eqb (Job.status r) processing); [ | reflexivity ].
  destruct (Job.stalls r) as [ s | ]; [ | reflexivity ]. simpl.
  rewrite !Z.leb_gt. lia.
Qed.

Lemma Forall2_in {A : Type} (R : A -> A -> Prop) (l l' : list A) :
  Forall2 R l l' ->
  forall x, In x l' -> exists a, In a l /\ R a x.
Proof.
  induction 1 as [ | a y l l' Hay _ IH ]; intros x; [ easy | ].
  intros [ <- | Hx ].
  - exists a. split; [ now left | exact Hay ].
  - destruct (IH x Hx) as (a' & Hin & Ha'). exists a'. split; [ now right | ].
    exact Ha'.
Qed.

(** After a scan that the server has accepted, no row is due for the
    same scan at the same or an earlier time. *)
Lemma none_due_after (due : Z -> Row -> bool) (f : Row -> StoreError + Row)
    (now earlier : Z) (rs rs' : list Row) :
  (forall r r', f r = inr r' -> due earlier r' = false) ->
  (forall r, due now r = false -> due earlier r = false) ->
  requeue_all (due now) f rs = inr rs' ->
  forall x, In x rs' -> due earlier x = false.
Proof.
  intros Hf Hearlier Hrs x Hx.
  destruct (Forall2_in _ _ _ (requeue_all_rows _ _ _ _ Hrs) x Hx)
    as (r & _ & Hr).
  destruct (due now r) eqn:E.
  - now apply (Hf r).
  - subst x. now apply Hearlier.
Qed.

Section MoreSweeping.
Variable db : DB.
Variable now : Z.
Hypothesis Hon : online db = true.
Hypothesis Htable : has_table db = true.

(** X14: when the counter of every row that is processing with
    [stalls <= now] has room and its new deadline is a DATETIME, the
    stall scan returns the number of these rows; each of them becomes
    ready, loses its worker, has its attempts raised by one and its
    stall deadline set to NOW() of the server plus [stallms], rounded to
    the second; its lease and its other columns, every other row and
    the rest of the store stay as they are.  When the counter of one of
    these rows is the largest INT, the scan rejects and the store is as
    before. *)
Theorem refreshStalled_requeues :
  (Forall
     (fun r => stall_due now r = true ->
               requeueable (NOW db) (Job.stallms r) r = true) (rows db) ->
   exists db' : DB,
     refreshStalled (pool := Server Connected) now db =
       (inr (List.length (filter (stall_due now) (rows db))), db') /\
     Forall2
       (fun r r' =>
          if stall_due now r
          then Job.status r' = ready /\ Job.workerid r' = None /\
               Job.attempts r' = Job.attempts r + 1 /\
               Job.stalls r' =
                 option_map (fun ms => datetime (NOW db + ms))
                   (Job.stallms r) /\
               Job.expires r' = Job.expires r /\ same_job r r'
          else r' = r)
       (rows db) (rows db') /\
     with_rows (rows db) db' = db) /\
  (Exists
     (fun r => stall_due now r = true /\ in_int (Job.attempts r + 1) = false)
     (rows db) ->
   exists e : StoreError,
     refreshStalled (pool := Server Connected) now db =
       (inl (StoreErr e), db)).
Proof.
  split.
  - intro Hroom. destruct (stalled_accepted db now Hroom) as [rs Hrs].
    exists (with_rows rs db). split; [ | split ].
    + engine. now rewrite (run_stalled db now Hon Htable), Hrs.
    + cbn [rows with_rows].
      eapply Forall2_impl; [ | exact (requeue_all_rows _ _ _ _ Hrs) ].
      intros r r'. cbv beta. destruct (stall_due now r); [ | easy ].
      apply requeue_stalled_inv.
    + now destruct db.
  - intro Hfull.
    destruct (requeue_all_refused (stall_due now)
                (requeue_stalled (NOW db)) (rows db)) as [e He].
    { apply (Exists_impl _ (P := fun r => stall_due now r = true /\
               in_int (Job.attempts r + 1) = false));
        [ | exact Hfull ].
      intros r [Hdue Hr]. split; [ exact Hdue | ].
      pose proof (requeue_stalled_room (NOW db) r) as H.
      unfold requeueable in H. now rewrite Hr in H. }
    exists e. engine. now rewrite (run_stalled db now Hon Htable), He.
Qed.

(** X15: after a scan nothing is left for the same scan: run again at
    the same or an earlier time, [refreshExpired] and [refreshStalled]
    return 0 and leave the store as the first run left it. *)
Theorem scan_again_finds_nothing (earlier : Z) :
  earlier <= now ->
  (forall n db1,
      refreshExpired (pool := Server Connected) now db = (inr n, db1) ->
      refreshExpired (pool := Server Connected) earlier db1 =
        (inr 0%nat, db1)) /\
  (forall n db1,
      refreshStalled (pool := Server Connected) now db = (inr n, db1) ->
      refreshStalled (pool := Server Connected) earlier db1 =
        (inr 0%nat, db1)).
Proof.
  intro Hle. split; intros n db1; engine.
  - rewrite (run_expired db now Hon Htable).
    destruct (requeue_all (lease_due now) (requeue_expired (NOW db)) (rows db))
      as [ e | rs ] eqn:Hrs; [ discriminate | ].
    intros [= _ <-]. rewrite run_expired by assumption.
    change (rows (with_rows rs db)) with rs.
    change (NOW (with_rows rs db)) with (NOW db).
    assert (forall x, In x rs -> lease_due earlier x = false) as Hnone.
    { apply (none_due_after lease_due (requeue_expired (NOW db)) now earlier
               (rows db) rs); [ | | exact Hrs ].
      - intros r r' Hr. apply requeue_expired_inv in Hr.
        unfold lease_due. now rewrite (proj1 Hr).
      - intro r. now apply lease_due_earlier. }
    rewrite (requeue_all_none _ _ _ Hnone).
    destruct (filter_none (lease_due earlier) rs Hnone) as [-> _].
    reflexivity.
  - rewrite (run_stalled db now Hon Htable).
    destruct (requeue_all (stall_due now) (requeue_stalled (NOW db)) (rows db))
      as [ e | rs ] eqn:Hrs; [ discriminate | ].
    intros [= _ <-]. rewrite run_stalled by assumption.
    change (rows (with_rows rs db)) with rs.
    change (NOW (with_rows rs db)) with (NOW db).
    assert (forall x, In x rs -> stall_due earlier x = false) as Hnone.
    { apply (none_due_after stall_due (requeue_stalled (NOW db)) now earlier
               (rows db) rs); [ | | exact Hrs ].
      - intros r r' Hr. apply requeue_stalled_inv in Hr.
        unfold stall_due. now rewrite (proj1 Hr).
      - intro r. now apply stall_due_earlier. }
    rewrite (requeue_all_none _ _ _ Hnone).
    destruct (filter_none (stall_due earlier) rs Hnone) as [-> _].
    reflexivity.
Qed.

(** X16: a scan never touches a row that is not processing or that has
    no deadline of its kind: whatever the time, the lease scan leaves a
    row with [expires] NULL where and as it is, and the stall scan a row
    with [stalls] NULL. *)
Theorem scan_needs_a_deadline (i : nat) (r : Row) :
  nth_error (rows db) i = Some r ->
  (Job.status r <> processing \/ Job.expires r = None ->
   nth_error (rows (snd (refreshExpired (pool := Server Connected) now db))) i
     = Some r) /\
  (Job.status r <> processing \/ Job.stalls r = None ->
   nth_error (rows (snd (refreshStalled (pool := Server Connected) now db))) i
     = Some r).
Proof.
  intro Hrow. split; intro H.
  - apply (expired_leaves db now Hon Htable i r Hrow).
    unfold lease_due. destruct H as [H | ->]; [ | apply andb_false_r ].
    destruct (status_eqb (Job.status r) processing) eqn:E;
      [ now apply status_eqb_eq in E | reflexivity ].
  - apply (stalled_leaves db now Hon Htable i r Hrow).
    unfold stall_due. destruct H as [H | ->]; [ | apply andb_false_r ].
    destruct (status_eqb (Job.status r) processing) eqn:E;
      [ now apply status_eqb_eq in E | reflexivity ].
Qed.
End MoreSweeping.

(** ** Reservation, step by step *)

Lemma map_at_id (f : Row -> Row) (i : string) (l1 l2 : list Row) (r : Row) :
  (forall x, In x (l1 ++ l2)%list -> has_id i x = false) ->
  has_id i r = true ->
  map (fun x => if has_id i x then f x else x) (l1 ++ r :: l2)%list =
  (l1 ++ f r :: l2)%list.
Proof.
  intros Hothers Hr. rewrite map_app. simpl. rewrite Hr. f_equal.
  - rewrite <- (map_id l1) at 2. apply map_ext_in. intros x Hx.
    rewrite Hothers; [ reflexivity | apply in_or_app; now left ].
  - f_equal. rewrite <- (map_id l2) at 2. apply map_ext_in. intros x Hx.
    rewrite Hothers; [ reflexivity | apply in_or_app; now right ].
Qed.

Section OneByOne.
Variable g : Generation.
Variable codec : Serializer.
Variable db : DB.
Hypothesis Hup : bootstrapped db = true.
Hypothesis Hkey : unique_ids (rows db) = true.

(** X17: a successful reservation rewrites one row and only its status:
    with a ready row in the table, the table after the reservation is
    the table before it with one of its ready rows set to processing,
    in the same place, and it holds one ready row less. *)
Theorem reserve_takes_one_ready_row (wId : string) :
  (exists x, In x (rows db) /\ Job.status x = ready) ->
  exists (r : Row) (l1 l2 : list Row),
    Job.status r = ready /\
    rows db = (l1 ++ r :: l2)%list /\
    rows (snd (reserve (pool := Server g) codec wId db)) =
      (l1 ++ set_status processing r :: l2)%list /\
    Datatypes.S
      (List.length
         (filter (fun x => status_eqb (Job.status x) ready)
            (rows (snd (reserve (pool := Server g) codec wId db))))) =
    List.length
      (filter (fun x => status_eqb (Job.status x) ready) (rows db)).
Proof.
  intro Hready. destruct (picked_some db Hready) as [r Hpicked].
  destruct (picked_ready db r Hpicked) as [Hin Hstatus].
  destruct (split_at_id r (rows db) Hkey Hin) as (l1 & l2 & Heq & Hothers).
  assert (has_id (Job.id r) r = true) as Hr
      by (unfold has_id; apply String.eqb_refl).
  assert (rows (snd (reserve (pool := Server g) codec wId db)) =
          (l1 ++ set_status processing r :: l2)%list) as Hafter.
  { engine. rewrite (call_with_ready g db Hup Hkey r Hpicked). simpl.
    rewrite Heq. now apply map_at_id. }
  exists r, l1, l2. split; [ exact Hstatus | ]. split; [ exact Heq | ].
  split; [ exact Hafter | ].
  rewrite Hafter, Heq, !filter_app. simpl. rewrite Hstatus.
  rewrite !length_app. simpl. lia.
Qed.

Section Taken.
Variable r : Row.
Hypothesis Hpicked : picked db = Some r.

(** X18: the reservation sets no deadline: a job reserved from a row
    whose [expires] and [stalls] are NULL stays processing under both
    scans at any time, until its holder writes a deadline. *)
Theorem reserved_without_deadline_stays (wId : string) (now : Z) :
  Job.expires r = None -> Job.stalls r = None ->
  let held := snd (reserve (pool := Server g) codec wId db) in
  In (set_status processing r) (rows held) /\
  In (set_status processing r)
    (rows (snd (refreshExpired (pool := Server Connected) now held))) /\
  In (set_status processing r)
    (rows (snd (refreshStalled (pool := Server Connected) now held))).
Proof.
  intros Hexpires Hstalls held.
  destruct (bootstrapped_inv db Hup) as (Hon & Htable & _).
  destruct (picked_ready db r Hpicked) as [Hin _].
  assert (held = claimed db r) as ->.
  { unfold held. engine.
    now rewrite (call_with_ready g db Hup Hkey r Hpicked). }
  assert (In (set_status processing r) (rows (claimed db r))) as Hheld.
  { unfold claimed. simpl. apply in_map_iff. exists r.
    unfold has_id. now rewrite String.eqb_refl. }
  destruct (In_nth_error _ _ Hheld) as [i Hi].
  split; [ exact Hheld | ].
  split; apply (nth_error_In _ i).
  - apply (expired_leaves (claimed db r) now Hon Htable i _ Hi).
    unfold lease_due. simpl. now rewrite Hexpires.
  - apply (stalled_leaves (claimed db r) now Hon Htable i _ Hi).
    unfold stall_due. simpl. now rewrite Hstalls.
Qed.
End Taken.
End OneByOne.

(** ** Operations one after the other *)

Lemma existsb_has_id_same (i : string) (l l' : list Row) :
  Forall2 (fun r r' => Job.id r' = Job.id r) l l' ->
  existsb (has_id i) l' = existsb (has_id i) l.
Proof.
  induction 1 as [ | r r' l l' Hid _ IH ]; simpl; [ reflexivity | ].
  unfold has_id at 1 3. now rewrite Hid, IH.
Qed.

Lemma unique_ids_same (l l' : list Row) :
  Forall2 (fun r r' => Job.id r' = Job.id r) l l' ->
  unique_ids l' = unique_ids l.
Proof.
  induction 1 as [ | r r' l l' Hid Hrest IH ]; simpl; [ reflexivity | ].
  now rewrite Hid, IH, (existsb_has_id_same (Job.id r) l l').
Qed.

Lemma filter_length_in {A : Type} (p : A -> bool) (l : list A) (a : A) :
  In a l -> p a = true -> (0 < List.length (filter p l))%nat.
Proof.
  intros Hin Hp.
  assert (In a (filter p l)) as H by (apply filter_In; now split).
  destruct (filter p l); [ easy | simpl; lia ].
Qed.

(** X19: recovery makes a job reservable again: when no row is ready,
    the lease of some row has ended, and the rows whose lease has ended
    can be requeued, the lease scan followed by a reservation hands out
    one of these rows, processing again, with one more attempt and
    without a worker. *)
Theorem recovered_job_is_reserved_again (codec : Serializer) (db : DB)
    (now : Z) (wId : string) :
  bootstrapped db = true ->
  unique_ids (rows db) = true ->
  Forall (fun x => Job.status x <> ready) (rows db) ->
  Forall
    (fun x => lease_due now x = true ->
              requeueable (NOW db) (Job.expirems x) x = true) (rows db) ->
  (exists x, In x (rows db) /\ lease_due now x = true) ->
  exists n db1 r job db2,
    refreshExpired (pool := Server Connected) now db = (inr n, db1) /\
    (0 < n)%nat /\
    In r (rows db) /\ lease_due now r = true /\
    reserve (pool := Server Connected) codec wId db1 = (inr (Some job), db2) /\
    obj_get c_id job = Some (VStr (Job.id r)) /\
    obj_get c_status job = Some (VStr "processing") /\
    obj_get c_attempts job = Some (VNum (Job.attempts r + 1)) /\
    obj_get c_workerid job = Some VNull.
Proof.
  intros Hup Hkey Hnone Hroom (x & Hx & Hxdue).
  destruct (bootstrapped_inv db Hup) as (Hon & Htable & Hsproc).
  destruct (expired_accepted db now Hroom) as [rs Hrs].
  pose proof (requeue_all_rows _ _ _ _ Hrs) as Hall.
  set (db1 := with_rows rs db).
  assert (unique_ids (rows db1) = true) as Hkey1.
  { cbn [db1 rows with_rows]. rewrite <- Hkey. apply unique_ids_same.
    eapply Forall2_impl; [ | exact Hall ].
    intros r r'. cbv beta. destruct (lease_due now r); [ | now intros -> ].
    intro H. apply requeue_expired_inv in H. apply H. }
  assert (exists y, In y (rows db1) /\ Job.status y = ready) as Hready.
  { destruct (In_nth_error _ _ Hx) as [i Hi].
    destruct (Forall2_at _ _ _ Hall i x Hi) as (y & Hy & Hxy).
    rewrite Hxdue in Hxy. apply requeue_expired_inv in Hxy.
    exists y. split; [ exact (nth_error_In _ _ Hy) | apply Hxy ]. }
  destruct (picked_some db1 Hready) as [r1 Hpicked].
  destruct (picked_ready db1 r1 Hpicked) as [Hin1 Hstatus1].
  destruct (Forall2_in _ _ _ Hall r1 Hin1) as (r & Hin & Hr).
  destruct (lease_due now r) eqn:Hdue.
  2:{ subst r1. rewrite Forall_forall in Hnone. now apply Hnone in Hin. }
  apply requeue_expired_inv in Hr.
  destruct Hr as (_ & Hworker & Hattempts & _ & _ & Hsame).
  destruct Hsame as [Hid _].
  exists (List.length (filter (lease_due now) (rows db))), db1, r.
  exists (fromMysql codec
            (row_to_obj Connected (set_status processing r1))).
  exists (claimed db1 r1).
  split; [ engine; now rewrite (run_expired db now Hon Htable), Hrs | ].
  split; [ now apply (filter_length_in _ _ x) | ].
  split; [ exact Hin | ]. split; [ exact Hdue | ].
  split.
  { engine. now rewrite (call_with_ready Connected db1 Hup Hkey1 r1 Hpicked). }
  repeat split; rewrite fromMysql_other by discriminate; simpl.
  - now rewrite Hid.
  - reflexivity.
  - now rewrite Hattempts.
  - now rewrite Hworker.
Qed.

Section AfterDeleting.
Variable g : Generation.
Variable codec : Serializer.
Variable db : DB.

(** X20: what [remove] deleted is gone: after [remove] with a filter,
    [get] with the same filter returns the empty list and a second
    [remove] returns 0, both leaving the store as it is. *)
Theorem remove_then_get_is_empty (q : JsObj) (n : nat) (db1 : DB) :
  remove (pool := Server g) q db = (inr n, db1) ->
  get (pool := Server g) codec q db1 = (inr [], db1) /\
  remove (pool := Server g) q db1 = (inr 0%nat, db1).
Proof.
  intro Hremove.
  assert (online db = true /\ has_table db = true /\ q <> [] /\
          known g (obj_keys q) = true) as (Hon & Htable & Hne & Hknown).
  { revert Hremove. engine. unfold run.
    destruct (online db); [ | discriminate ]. cbn [negb].
    destruct q as [ | [k v] q ]; [ discriminate | ]. cbn [obj_keys map fst].
    destruct (has_table db); [ | discriminate ]. cbn [negb]. unfold delete.
    destruct (Nat.eqb _ _); [ | discriminate ]. cbn [negb].
    destruct (known g (k :: map fst q)); [ | discriminate ].
    intros _. repeat split. discriminate. }
  revert Hremove. engine.
  rewrite (run_delete_where g db Hon Htable q Hne Hknown).
  intros [= _ <-].
  destruct (filter_none (matches q)
              (filter (fun r => negb (matches q r)) (rows db)))
    as [Hgone Hkept].
  { intros r Hr. apply filter_In in Hr. now apply negb_true_iff. }
  split.
  - rewrite run_select_where; try assumption. cbn [rows with_rows].
    now rewrite Hgone.
  - rewrite run_delete_where; try assumption. cbn [rows with_rows].
    rewrite Hgone, Hkept. reflexivity.
Qed.

(** X21: [clear] deletes the rows and keeps the schema: it returns the
    number of rows, and on the store it leaves every [getById] and every
    reservation returns null and a second [clear] returns 0. *)
Theorem clear_empties_the_table :
  bootstrapped db = true ->
  exists db1,
    clear (pool := Server g) db = (inr (List.length (rows db)), db1) /\
    rows db1 = [] /\ bootstrapped db1 = true /\
    index_names db1 = index_names db /\
    (forall id, getById (pool := Server g) codec id db1 = (inr None, db1)) /\
    (forall wId,
        reserve (pool := Server g) codec wId db1 = (inr None, db1)) /\
    clear (pool := Server g) db1 = (inr 0%nat, db1).
Proof.
  intro Hup. destruct (bootstrapped_inv db Hup) as (Hon & Htable & Hsproc).
  exists (with_rows [] db).
  split; [ engine; unfold run; now rewrite Hon, Htable | ].
  split; [ reflexivity | ]. split; [ exact Hup | ].
  split; [ reflexivity | ]. split; [ | split ].
  - intro id. now rewrite getById_find.
  - intro wId. engine. rewrite call_without_ready; [ reflexivity | exact Hup | ].
    constructor.
  - engine. unfold run. simpl. now rewrite Hon, Htable.
Qed.
End AfterDeleting.

(** ** Bootstrap and opening *)

Lemma initSchema_on_server (g : Generation) (db : DB) :
  online db = true ->
  exists db1,
    initSchema (pool := Server g) g db = (inr tt, db1) /\
    bootstrapped db1 = true /\
    rows db1 = (if has_table db then rows db else []) /\
    clock db1 = clock db.
Proof.
  intro Hon. destruct db as [o c t ix sp rs place path]. simpl in Hon. subst o.
  unfold initSchema, add_indexes, bind, try_ignore, await, ret.
  cbn [execute query Server]. unfold run, indexes.
  destruct g, t; cbn -[String.eqb];
    repeat match goal with
      | |- context [existsb ?p ix] =>
          destruct (existsb p ix) eqn:?; cbn -[String.eqb]
      end;
    eexists; repeat split.
Qed.

(** X22: the bootstrap never deletes a job: on a reachable server that
    has the table, [initSchema] (and [createTable]) resolve, leave the
    rows as they are and the store ready for reservations, whatever
    indexes and procedure were there before. *)
Theorem initSchema_keeps_jobs (g : Generation) (db : DB) :
  online db = true -> has_table db = true ->
  exists db1,
    initSchema (pool := Server g) g db = (inr tt, db1) /\
    createTable (pool := Server g) g db = (inr tt, db1) /\
    rows db1 = rows db /\ bootstrapped db1 = true.
Proof.
  intros Hon Htable.
  destruct (initSchema_on_server g db Hon) as (db1 & Hinit & Hup & Hrows & _).
  rewrite Htable in Hrows. exists db1. now repeat split.
Qed.

(** X23: [open] reports one event.  It is [open] when the connection,
    CREATE TABLE, DROP PROCEDURE and CREATE PROCEDURE all resolve, and
    otherwise [close] with the first of their rejections; what the index
    statements answer plays no part. *)
Theorem open_reports_one_event (g : Generation)
    (connection : option StoreError) (outcome : Stmt -> option StoreError) :
  fst (open (pool := Answering outcome) g (answering_connect connection) tt) =
  match connection with
  | Some e => [ev_close (Some (StoreErr e))]
  | None =>
      match first_rejection (outcome CreateTable) (outcome DropProcedure)
              (outcome CreateProcedure) with
      | inl err => [ev_close (Some err)]
      | inr _ => [ev_open]
      end
  end.
Proof.
  unfold open. unfold bind at 1. unfold await at 1.
  destruct connection as [ e | ]; [ reflexivity | ]. cbn [answering_connect].
  unfold initSchema. unfold bind at 1. unfold await at 1. simpl.
  destruct (outcome CreateTable) as [ e | ]; [ reflexivity | ].
  unfold bind at 1. rewrite add_indexes_answering.
  unfold bind, await, ret. simpl.
  destruct (outcome DropProcedure) as [ e | ]; [ reflexivity | ].
  destruct (outcome CreateProcedure) as [ e | ]; reflexivity.
Qed.

(** X24: on the server, [open] reports [open] exactly when the server is
    reachable, and then the store is ready for reservations with the
    rows it had; on an unreachable server it reports [close] with the
    error of the connection and nothing is changed. *)
Theorem open_on_server (g : Generation) (db : DB) :
  (online db = true ->
   exists db1,
     open (pool := Server g) g server_connect db = ([ev_open], db1) /\
     bootstrapped db1 = true /\
     rows db1 = (if has_table db then rows db else [])) /\
  (online db = false ->
   open (pool := Server g) g server_connect db =
     ([ev_close (Some (StoreErr CR_SERVER_LOST))], db)).
Proof.
  split; intro Hon.
  - destruct (initSchema_on_server g db Hon) as (db1 & Hinit & Hup & Hrows & _).
    exists db1. split; [ | now split ].
    unfold open. unfold bind at 1. unfold await at 1. unfold server_connect.
    now rewrite Hon, Hinit.
  - unfold open. unfold bind at 1. unfold await at 1. unfold server_connect.
    now rewrite Hon.
Qed.

(** * The further properties at concrete stores *)

Lemma get_matches_every_field_witness :
  online (store [j1; busy; late]) = true /\
  has_table (store [j1; busy; late]) = true /\
  [(c_status, VStr "processing")] <> [] /\
  known Connected (obj_keys [(c_status, VStr "processing")]) = true /\
  fst (get (pool := Server Connected) plain [(c_status, VStr "processing")]
         (store [j1; busy; late])) =
    inr [fromMysql plain (row_to_obj Connected busy);
         fromMysql plain (row_to_obj Connected late)].
Proof.
  assert ([(c_status, VStr "processing")] <> []) as Hne by discriminate.
  do 2 (split; [ reflexivity | ]). split; [ exact Hne | ].
  split; [ reflexivity | ].
  destruct (get_matches_every_field Connected plain (store [j1; busy; late])
              eq_refl eq_refl [(c_status, VStr "processing")] Hne eq_refl)
    as (found & Hget & -> & _).
  now rewrite Hget.
Defined.

Lemma null_filter_matches_nothing_witness :
  online (store [j1; busy]) = true /\ has_table (store [j1; busy]) = true /\
  In (c_workerid, VNull) [(c_workerid, VNull)] /\
  known Pooled (obj_keys [(c_workerid, VNull)]) = true /\
  get (pool := Server Pooled) plain [(c_workerid, VNull)] (store [j1; busy]) =
    (inr [], store [j1; busy]) /\
  remove (pool := Server Pooled) [(c_workerid, VNull)] (store [j1; busy]) =
    (inr 0%nat, store [j1; busy]).
Proof.
  do 2 (split; [ reflexivity | ]). split; [ now left | ].
  split; [ reflexivity | ].
  exact (null_filter_matches_nothing Pooled plain (store [j1; busy])
           eq_refl eq_refl [(c_workerid, VNull)] c_workerid
           (or_introl eq_refl) eq_refl).
Defined.

Lemma getById_null_iff_absent_witness :
  online (store [j1; busy]) = true /\ has_table (store [j1; busy]) = true /\
  getById (pool := Server Connected) plain "j7" (store [j1; busy]) =
    (inr None, store [j1; busy]).
Proof.
  assert (Forall (fun r => Job.id r <> "j7") (rows (store [j1; busy])))
    as Habsent by (repeat constructor; discriminate).
  do 2 (split; [ reflexivity | ]).
  destruct (getById_null_iff_absent Connected plain (store [j1; busy])
              eq_refl eq_refl "j7") as (found & Hget & Hiff & _).
  rewrite Hget. f_equal. f_equal. now apply Hiff.
Defined.

Lemma getById_without_payload_witness :
  online (store [j1; bare]) = true /\ has_table (store [j1; bare]) = true /\
  find (has_id "j6") (rows (store [j1; bare])) = Some bare /\
  (Job.data bare = None \/ Job.data bare = Some "") /\
  getById (pool := Server Connected) marked "j6" (store [j1; bare]) =
    (inr (Some (row_to_obj Connected bare)), store [j1; bare]).
Proof.
  do 3 (split; [ reflexivity | ]). split; [ now left | ].
  exact (proj1 (getById_without_payload Connected marked (store [j1; bare])
                  eq_refl eq_refl "j6" bare eq_refl (or_introl eq_refl))).
Defined.


Lemma add_rejects_duplicate_id_witness :
  add (pool := Server Connected) marked j9
      (with_rows [] (store [j1; j9_row])) = (inr tt, store [j9_row]) /\
  In j9_row (rows (store [j1; j9_row])) /\
  obj_get c_id j9 = Some (VStr (Job.id j9_row)) /\
  add (pool := Server Connected) marked j9 (store [j1; j9_row]) =
    (inl (StoreErr ER_DUP_ENTRY), store [j1; j9_row]).
Proof.
  assert (In j9_row (rows (store [j1; j9_row]))) as Hin by (right; now left).
  split; [ reflexivity | ]. split; [ exact Hin | ]. split; [ reflexivity | ].
  exact (add_rejects_duplicate_id Connected marked j9 (store [j1; j9_row])
           (store [j9_row]) j9_row eq_refl Hin eq_refl).
Defined.

Lemma add_rejects_incomplete_job_witness :
  online (store [j1]) = true /\ has_table (store [j1]) = true /\
  known Connected (obj_keys j5) = true /\ distinct (obj_keys j5) = true /\
  In c_created (required Connected) /\
  mentions (obj_keys j5) c_created = false /\
  add (pool := Server Connected) marked j5 (store [j1]) =
    (inl (StoreErr ER_NO_DEFAULT_FOR_FIELD), store [j1]).
Proof.
  assert (In c_created (required Connected)) as Hreq by (right; now left).
  do 4 (split; [ reflexivity | ]). split; [ exact Hreq | ].
  split; [ reflexivity | ].
  exact (add_rejects_incomplete_job Connected marked j5 (store [j1])
           c_created eq_refl eq_refl eq_refl eq_refl Hreq eq_refl).
Defined.

Lemma add_then_removeById_witness :
  add (pool := Server Connected) marked j9 (store [j1]) =
    (inr tt, store [j1; j9_row]) /\
  obj_get c_id j9 = Some (VStr "j9") /\
  removeById (pool := Server Connected) "j9" (store [j1; j9_row]) =
    (inr true, store [j1]).
Proof.
  do 2 (split; [ reflexivity | ]).
  exact (add_then_removeById Connected marked j9 (store [j1])
           (store [j1; j9_row]) "j9" eq_refl eq_refl).
Defined.


Lemma updateById_stores_data_unpacked_witness :
  online (store [j1; busy]) = true /\ has_table (store [j1; busy]) = true /\
  rows (store [j1; busy]) = ([j1] ++ busy :: [])%list /\
  Job.id busy = "j2" /\
  (forall x, In x ([j1] ++ [])%list -> Job.id x <> "j2") /\
  unique_ids (rows (store [j1; busy])) = true /\
  exists db' job,
    updateById (pool := Server Connected) "j2" [(c_data, VStr "s:raw")]
        (store [j1; busy]) = (inr tt, db') /\
    getById (pool := Server Connected) marked "j2" db' =
      (inr (Some job), db') /\
    obj_get c_data job = Some (VStr "raw").
Proof.
  assert (forall x, In x ([j1] ++ [])%list -> Job.id x <> "j2") as Hothers
      by (intros x [ <- | [] ]; discriminate).
  do 4 (split; [ reflexivity | ]). split; [ exact Hothers | ].
  split; [ reflexivity | ].
  destruct (updateById_stores_data_unpacked Connected marked
              (store [j1; busy]) "j2" [j1] [] busy eq_refl eq_refl eq_refl
              eq_refl Hothers "s:raw" eq_refl)
    as (db' & job & Hupdate & _ & Hget & Hdata).
  exists db', job. now repeat split.
Defined.

Lemma refreshStalled_requeues_witness :
  online (store [j1; busy]) = true /\ has_table (store [j1; busy]) = true /\
  Forall
    (fun r => stall_due 2000 r = true ->
              requeueable (NOW (store [j1; busy])) (Job.stallms r) r = true)
    (rows (store [j1; busy])) /\
  (exists db' : DB,
      refreshStalled (pool := Server Connected) 2000 (store [j1; busy]) =
        (inr 1%nat, db') /\
      map Job.stalls (rows db') = [None; Some 61000] /\
      with_rows (rows (store [j1; busy])) db' = store [j1; busy]) /\
  Exists
    (fun r => stall_due 2000 r = true /\ in_int (Job.attempts r + 1) = false)
    (rows (store [stuck])) /\
  exists e : StoreError,
    refreshStalled (pool := Server Connected) 2000 (store [stuck]) =
      (inl (StoreErr e), store [stuck]).
Proof.
  assert (Forall
            (fun r => stall_due 2000 r = true ->
                      requeueable (NOW (store [j1; busy])) (Job.stallms r) r =
                        true) (rows (store [j1; busy]))) as Hroom
      by (repeat constructor).
  assert (Exists
            (fun r => stall_due 2000 r = true /\
                      in_int (Job.attempts r + 1) = false)
            (rows (store [stuck]))) as Hfull
      by (left; split; reflexivity).
  do 2 (split; [ reflexivity | ]). split; [ exact Hroom | ].
  split.
  - destruct (refreshStalled_requeues (store [j1; busy]) 2000 eq_refl eq_refl)
      as [Hok _].
    destruct (Hok Hroom) as (db' & Hscan & _ & Hrest).
    exists db'. injection Hscan as <-. now repeat split.
  - split; [ exact Hfull | ].
    destruct (refreshStalled_requeues (store [stuck]) 2000 eq_refl eq_refl)
      as [_ Hno].
    exact (Hno Hfull).
Defined.

Lemma scan_again_finds_nothing_witness :
  online (store [late; busy]) = true /\
  has_table (store [late; busy]) = true /\ 1500 <= 2000 /\
  exists n db1,
    refreshExpired (pool := Server Connected) 2000 (store [late; busy]) =
      (inr n, db1) /\ n = 1%nat /\
    refreshExpired (pool := Server Connected) 1500 db1 = (inr 0%nat, db1).
Proof.
  assert (1500 <= 2000) as Hle by lia.
  do 2 (split; [ reflexivity | ]). split; [ exact Hle | ].
  eexists. eexists. split; [ reflexivity | ]. split; [ reflexivity | ].
  exact (proj1 (scan_again_finds_nothing (store [late; busy]) 2000
                  eq_refl eq_refl 1500 Hle) _ _ eq_refl).
Defined.

Lemma scan_needs_a_deadline_witness :
  online (store [idle; late]) = true /\
  has_table (store [idle; late]) = true /\
  nth_error (rows (store [idle; late])) 0 = Some idle /\
  Job.expires idle = None /\
  nth_error
    (rows (snd (refreshExpired (pool := Server Connected) 2000
                  (store [idle; late])))) 0 = Some idle.
Proof.
  do 4 (split; [ reflexivity | ]).
  exact (proj1 (scan_needs_a_deadline (store [idle; late]) 2000 eq_refl
                  eq_refl 0 idle eq_refl) (or_intror eq_refl)).
Defined.

Lemma reserve_takes_one_ready_row_witness :
  bootstrapped (heap [j1; busy; j9_row]) = true /\
  unique_ids (rows (heap [j1; busy; j9_row])) = true /\
  (exists x, In x (rows (heap [j1; busy; j9_row])) /\ Job.status x = ready) /\
  exists (r : Row) (l1 l2 : list Row),
    Job.status r = ready /\
    rows (heap [j1; busy; j9_row]) = (l1 ++ r :: l2)%list /\
    rows (snd (reserve (pool := Server Connected) plain "workerA"
                 (heap [j1; busy; j9_row]))) =
      (l1 ++ set_status processing r :: l2)%list.
Proof.
  assert (exists x, In x (rows (heap [j1; busy; j9_row])) /\
                    Job.status x = ready) as Hready
      by (exists j1; split; [ now left | reflexivity ]).
  do 2 (split; [ reflexivity | ]). split; [ exact Hready | ].
  destruct (reserve_takes_one_ready_row Connected plain
              (heap [j1; busy; j9_row]) eq_refl eq_refl "workerA" Hready)
    as (r & l1 & l2 & Hstatus & Hbefore & Hafter & _).
  exists r, l1, l2. now repeat split.
Defined.

Lemma reserved_without_deadline_stays_witness :
  bootstrapped (heap [j1; busy; j9_row]) = true /\
  unique_ids (rows (heap [j1; busy; j9_row])) = true /\
  picked (heap [j1; busy; j9_row]) = Some j9_row /\
  Job.expires j9_row = None /\ Job.stalls j9_row = None /\
  In (set_status processing j9_row)
    (rows (snd (refreshExpired (pool := Server Connected) 99999
                  (snd (reserve (pool := Server Connected) plain "workerA"
                          (heap [j1; busy; j9_row])))))).
Proof.
  do 5 (split; [ reflexivity | ]).
  exact (proj1 (proj2 (reserved_without_deadline_stays Connected plain
                         (heap [j1; busy; j9_row]) eq_refl eq_refl j9_row
                         eq_refl "workerA" 99999 eq_refl eq_refl))).
Defined.

Lemma recovered_job_is_reserved_again_witness :
  bootstrapped (store [late; busy]) = true /\
  unique_ids (rows (store [late; busy])) = true /\
  Forall (fun x => Job.status x <> ready) (rows (store [late; busy])) /\
  Forall
    (fun x => lease_due 2000 x = true ->
              requeueable (NOW (store [late; busy])) (Job.expirems x) x = true)
    (rows (store [late; busy])) /\
  (exists x, In x (rows (store [late; busy])) /\ lease_due 2000 x = true) /\
  exists n db1 r job db2,
    refreshExpired (pool := Server Connected) 2000 (store [late; busy]) =
      (inr n, db1) /\
    In r (rows (store [late; busy])) /\ lease_due 2000 r = true /\
    reserve (pool := Server Connected) marked "workerC" db1 =
      (inr (Some job), db2) /\
    obj_get c_id job = Some (VStr (Job.id r)) /\
    obj_get c_attempts job = Some (VNum (Job.attempts r + 1)).
Proof.
  assert (Forall (fun x => Job.status x <> ready) (rows (store [late; busy])))
    as Hnone by (repeat constructor; discriminate).
  assert (Forall
            (fun x => lease_due 2000 x = true ->
                      requeueable (NOW (store [late; busy]))
                        (Job.expirems x) x = true)
            (rows (store [late; busy]))) as Hroom
      by (repeat constructor).
  assert (exists x, In x (rows (store [late; busy])) /\
                    lease_due 2000 x = true) as Hdue
      by (exists late; split; [ now left | reflexivity ]).
  do 2 (split; [ reflexivity | ]). split; [ exact Hnone | ].
  split; [ exact Hroom | ]. split; [ exact Hdue | ].
  destruct (recovered_job_is_reserved_again marked (store [late; busy])
              2000 "workerC" eq_refl eq_refl Hnone Hroom Hdue)
    as (n & db1 & r & job & db2 & Hscan & _ & Hin & Hr & Hreserve & Hid & _ &
        Hattempts & _).
  exists n, db1, r, job, db2. now repeat split.
Defined.

Lemma remove_then_get_is_empty_witness :
  remove (pool := Server Pooled) [(c_status, VStr "processing")]
      (store [j1; busy]) = (inr 1%nat, store [j1]) /\
  get (pool := Server Pooled) plain [(c_status, VStr "processing")]
      (store [j1]) = (inr [], store [j1]) /\
  remove (pool := Server Pooled) [(c_status, VStr "processing")]
      (store [j1]) = (inr 0%nat, store [j1]).
Proof.
  split; [ reflexivity | ].
  exact (remove_then_get_is_empty Pooled plain (store [j1; busy])
           [(c_status, VStr "processing")] 1%nat (store [j1]) eq_refl).
Defined.

Lemma clear_empties_the_table_witness :
  bootstrapped (store [j1; busy]) = true /\
  exists db1,
    clear (pool := Server Connected) (store [j1; busy]) = (inr 2%nat, db1) /\
    rows db1 = [] /\
    reserve (pool := Server Connected) plain "workerA" db1 = (inr None, db1).
Proof.
  split; [ reflexivity | ].
  destruct (clear_empties_the_table Connected plain (store [j1; busy])
              eq_refl) as (db1 & Hclear & Hrows & _ & _ & _ & Hreserve & _).
  exists db1. split; [ exact Hclear | ]. split; [ exact Hrows | ].
  apply Hreserve.
Defined.

Lemma initSchema_keeps_jobs_witness :
  online unprepared = true /\ has_table unprepared = true /\
  exists db1,
    initSchema (pool := Server Connected) Connected unprepared =
      (inr tt, db1) /\
    rows db1 = [j1] /\ bootstrapped db1 = true.
Proof.
  do 2 (split; [ reflexivity | ]).
  destruct (initSchema_keeps_jobs Connected unprepared eq_refl eq_refl)
    as (db1 & Hinit & _ & Hrows & Hup).
  exists db1. now repeat split.
Defined.

Lemma open_on_server_witness :
  online unprepared = true /\ online (unplugged unprepared) = false /\
  (exists db1,
      open (pool := Server Pooled) Pooled server_connect unprepared =
        ([ev_open], db1) /\ rows db1 = [j1]) /\
  open (pool := Server Pooled) Pooled server_connect (unplugged unprepared) =
    ([ev_close (Some (StoreErr CR_SERVER_LOST))], unplugged unprepared).
Proof.
  do 2 (split; [ reflexivity | ]).
  destruct (open_on_server Pooled unprepared) as [Hup _].
  destruct (open_on_server Pooled (unplugged unprepared)) as [_ Hdown].
  split; [ | exact (Hdown eq_refl) ].
  destruct (Hup eq_refl) as (db1 & Hopen & _ & Hrows).
  exists db1. now split.
Defined.
